(** * osinredis: a Redis-backed osin.Storage

    A shallow embedding of [storage.go] and a verification of its
    key scheme, of the access/refresh indirection and of its error paths.

    Layout:
    - [fmt], [errors]: the two small Go library functions the store formats
      keys and annotates errors with;
    - [redis]: the key-value engine seen through one pooled connection
      (GET, SET, SETEX, DEL), with expiry and injected I/O faults;
    - [osin]: the record shapes the store persists;
    - [gob]: the codec interface, its laws, and a reference codec;
    - the store itself, one definition per function of [storage.go];
    - the properties. *)

From Stdlib Require Import ZArith Lia Ascii String.
From stdpp Require Import base option strings list countable gmap fin_maps.

Open Scope string_scope.
Open Scope Z_scope.

(** ** Go values held in an [interface{}] *)

(** A non-nil [interface{}] value: the name of its dynamic type and its
    contents, which the store never inspects.  A nil interface is [None]. *)
Record boxed : Type := Box { typeName : string; contents : string }.

(** ** Package fmt *)

Module fmt.

(** [fmt.Sprintf] restricted to the [%s] verb, the only one [storage.go]
    uses.  A verb without an argument prints Go's [%!s(MISSING)]. *)
Fixpoint Sprintf (format : string) (args : list string) : string :=
  match format with
  | EmptyString => EmptyString
  | String c rest =>
      match rest with
      | String d rest' =>
          if (Ascii.eqb c "%"%char && Ascii.eqb d "s"%char)%bool then
            match args with
            | a :: args' => a +:+ Sprintf rest' args'
            | [] => "%!s(MISSING)" +:+ Sprintf rest' []
            end
          else String c (Sprintf rest args)
      | EmptyString => String c EmptyString
      end
  end.

End fmt.

(** ** Package errors (github.com/pkg/errors) *)

Module errors.

Inductive error : Type :=
| ErrNil                                (* redis.ErrNil, "redigo: nil returned" *)
| ErrConn (msg : string)                (* I/O failure or an error reply of the engine *)
| ErrUnexpected (msg : string)          (* redigo: unexpected type for a reply helper *)
| ErrGob (msg : string)                 (* an error of encoding/gob *)
| ErrNew (msg : string)                 (* errors.New *)
| ErrWrap (cause : error) (msg : string). (* errors.Wrap *)

Definition New (msg : string) : option error := Some (ErrNew msg).

(** [errors.Wrap] returns nil when [err] is nil. *)
Definition Wrap (err : option error) (msg : string) : option error :=
  match err with
  | None => None
  | Some e => Some (ErrWrap e msg)
  end.

Definition Wrapf (err : option error) (format : string) (args : list string)
  : option error :=
  Wrap err (fmt.Sprintf format args).

(** [errors.Cause]: the innermost error of a chain of wraps. *)
Fixpoint Cause (e : error) : error :=
  match e with
  | ErrWrap c _ => Cause c
  | _ => e
  end.

End errors.
Export errors(error).

(** The conditions of the store's error taxonomy, read off the cause
    of a returned error. *)
Definition NotFound (err : option error) : Prop :=
  exists e, err = Some e /\ errors.Cause e = errors.ErrNil.

Definition Expired (err : option error) : Prop :=
  exists e, err = Some e /\ errors.Cause e = errors.ErrNew "token is expired".

Definition BackendError (err : option error) : Prop :=
  exists e msg, err = Some e /\ errors.Cause e = errors.ErrConn msg.

(** ** Package redis (github.com/garyburd/redigo/redis) and the engine *)

Module redis.

(** A stored value and, for keys set with SETEX, the instant at which the
    engine stops serving it. *)
Record entry : Type := Entry { value : string; expireAt : option Z }.

(** The four commands the store issues through [conn.Do]. *)
Inductive command : Type :=
| GET (key : string)
| SET (key value : string)
| SETEX (key : string) (seconds : Z) (value : string)
| DEL (key : string).

(** Replies as redigo hands them to the caller: nil, a bulk string
    ([[]byte]), a status line ([string]) or an integer ([int64]). *)
Inductive reply : Type :=
| Nil
| Bulk (b : string)
| Status (s : string)
| Int (n : Z).

Definition live (clock : Z) (e : entry) : bool :=
  match expireAt e with
  | Some t => clock <? t
  | None => true
  end.

(** What GET serves for [key] at instant [clock]: an entry whose expiry
    has passed is absent. *)
Definition get (db : gmap string entry) (clock : Z) (key : string)
  : option string :=
  match db !! key with
  | Some e => if live clock e then Some (value e) else None
  | None => None
  end.

(** One command executed by a reachable engine.  SETEX with a non-positive
    expiry is refused with an error reply and changes nothing; DEL answers
    the number of keys removed, zero for an absent key. *)
Definition exec (cmd : command) (db : gmap string entry) (clock : Z)
  : (reply * option error) * gmap string entry :=
  match cmd with
  | GET k =>
      (match get db clock k with
       | Some v => (Bulk v, None)
       | None => (Nil, None)
       end, db)
  | SET k v => ((Status "OK", None), <[k := Entry v None]> db)
  | SETEX k secs v =>
      if secs <=? 0
      then ((Nil, Some (errors.ErrConn "ERR invalid expire time in setex")), db)
      else ((Status "OK", None), <[k := Entry v (Some (clock + secs))]> db)
  | DEL k =>
      ((Int (match get db clock k with Some _ => 1 | None => 0 end), None),
       delete k db)
  end.

(** [redis.Bytes(reply, err)] *)
Definition Bytes (r : reply * option error) : string * option error :=
  match r with
  | (_, Some e) => ("", Some e)
  | (Bulk b, None) => (b, None)
  | (Status s, None) => (s, None)
  | (Nil, None) => ("", Some errors.ErrNil)
  | (Int _, None) =>
      ("", Some (errors.ErrUnexpected "redigo: unexpected type for Bytes, got type int64"))
  end.

(** [redis.String(reply, err)] *)
Definition String (r : reply * option error) : string * option error :=
  match r with
  | (_, Some e) => ("", Some e)
  | (Bulk b, None) => (b, None)
  | (Status s, None) => (s, None)
  | (Nil, None) => ("", Some errors.ErrNil)
  | (Int _, None) =>
      ("", Some (errors.ErrUnexpected "redigo: unexpected type for String, got type int64"))
  end.

End redis.

(** ** The world a call runs in *)

(** The engine's key space and clock, and the two sources of
    nondeterminism of a call: [faults] schedules, one flag per round-trip,
    which round-trips fail with an I/O error (an exhausted schedule means a
    reachable engine), and [entropy] is the sequence of identifiers
    [uuid.NewV4] draws. *)
Record World : Type := mkWorld {
  db : gmap string redis.entry;
  clock : Z;
  faults : list bool;
  entropy : nat -> string;
  draws : nat;
}.

(** Time passing between two calls. *)
Definition tick (seconds : Z) (w : World) : World :=
  mkWorld (db w) (clock w + Z.max 0 seconds) (faults w) (entropy w) (draws w).

(** What a GET of [key] would be served in [w]. *)
Definition stored (w : World) (key : string) : option string :=
  redis.get (db w) (clock w) key.

(** A call either returns or panics (a nil dereference). *)
Inductive outcome (A : Type) : Type :=
| Ret (a : A)
| Panic (msg : string).
Arguments Ret {A} a.
Arguments Panic {A} msg.

Definition M (A : Type) : Type := World -> outcome A * World.

#[export] Instance M_ret : MRet M := fun A a w => (Ret a, w).

#[export] Instance M_bind : MBind M := fun A B k m w =>
  match m w with
  | (Ret a, w') => k a w'
  | (Panic msg, w') => (Panic msg, w')
  end.

Definition panic {A : Type} (msg : string) : M A := fun w => (Panic msg, w).

(** Whether the next round-trip is scheduled to fail. *)
Definition faulty (w : World) : bool :=
  match faults w with
  | true :: _ => true
  | _ => false
  end.

(** The answer to one command and the key space it leaves: a scheduled
    fault answers an I/O error and leaves the key space alone. *)
Definition round (cmd : redis.command) (w : World)
  : (redis.reply * option error) * gmap string redis.entry :=
  if faulty w
  then ((redis.Nil, Some (errors.ErrConn "i/o failure")), db w)
  else redis.exec cmd (db w) (clock w).

(** The world after a round-trip that left key space [d]. *)
Definition after (w : World) (d : gmap string redis.entry) : World :=
  mkWorld d (clock w) (tail (faults w)) (entropy w) (draws w).

(** [conn.Do]: one round-trip. *)
Definition Do (cmd : redis.command) : M (redis.reply * option error) :=
  fun w => let '(r, d) := round cmd w in (Ret r, after w d).

(** ** Package uuid (github.com/satori/go.uuid) *)

Module uuid.

(** [uuid.NewV4().String()]: the next identifier of the world's entropy. *)
Definition NewV4 : M string :=
  fun w =>
    (Ret (entropy w (draws w)),
     mkWorld (db w) (clock w) (faults w) (entropy w) (S (draws w))).

End uuid.

(** ** Package osin (github.com/RangelReale/osin): the record shapes *)

Module osin.

(** Modelled from the spec: the declaration of [osin.DefaultClient] is not
    part of the sources.  A client has an identity, a secret, a redirect
    URI and an opaque extension value ([UserData], an [interface{}]). *)
Record DefaultClient : Type := mkDefaultClient {
  Id : string;
  Secret : string;
  RedirectUri : string;
  UserData : option boxed;
}.

(** Modelled from the spec: any other implementation of the [osin.Client]
    interface a caller may bring.  It is known to the store by the name of
    its dynamic type, by what its four methods return, and by the exported
    string fields a reflective codec can see in it. *)
Record CustomClient : Type := mkCustomClient {
  TypeName : string;
  Fields : list (string * string);
  getId : string;
  getSecret : string;
  getRedirectUri : string;
  getUserData : option boxed;
}.

(** A non-nil value of interface type [osin.Client]: a [*DefaultClient] or
    a value of another implementation. *)
Inductive Client : Type :=
| PtrDefaultClient (c : DefaultClient)
| Custom (c : CustomClient).

Definition GetId (c : Client) : string :=
  match c with
  | PtrDefaultClient d => Id d
  | Custom o => getId o
  end.

Definition GetSecret (c : Client) : string :=
  match c with
  | PtrDefaultClient d => Secret d
  | Custom o => getSecret o
  end.

Definition GetRedirectUri (c : Client) : string :=
  match c with
  | PtrDefaultClient d => RedirectUri d
  | Custom o => getRedirectUri o
  end.

Definition GetUserData (c : Client) : option boxed :=
  match c with
  | PtrDefaultClient d => UserData d
  | Custom o => getUserData o
  end.

End osin.

Module AuthorizeData.

(** Modelled from the spec: the declaration of [osin.AuthorizeData] is not
    part of the sources.  [Client] is an interface field and may be nil;
    [ExpiresIn] is an [int32] number of seconds; scope and state are
    carried verbatim. *)
Record t : Type := mk {
  Client : option osin.Client;
  Code : string;
  ExpiresIn : Z;
  Scope : string;
  State : string;
}.

Definition zero : t := mk None "" 0 "" "".

Definition withClient (d : t) (c : option osin.Client) : t :=
  mk c (Code d) (ExpiresIn d) (Scope d) (State d).

End AuthorizeData.

Module AccessData.

(** Modelled from the spec: the declaration of [osin.AccessData] is not
    part of the sources.  [Client] is an interface field and
    [AuthorizeData] a pointer; both may be nil.  The refresh token may be
    blank. *)
Record t : Type := mk {
  Client : option osin.Client;
  AuthorizeData : option AuthorizeData.t;
  AccessToken : string;
  RefreshToken : string;
  ExpiresIn : Z;
  Scope : string;
}.

Definition zero : t := mk None None "" "" 0 "".

Definition withClient (d : t) (c : option osin.Client) : t :=
  mk c (AuthorizeData d) (AccessToken d) (RefreshToken d) (ExpiresIn d) (Scope d).

Definition withAuthorizeData (d : t) (a : option AuthorizeData.t) : t :=
  mk (Client d) a (AccessToken d) (RefreshToken d) (ExpiresIn d) (Scope d).

End AccessData.

Definition zeroDefaultClient : osin.DefaultClient :=
  osin.mkDefaultClient "" "" "" None.

(** ** Package gob (encoding/gob): the codec the store relies on *)

Module gob.

(** The types [init] registers with [gob.Register], by their gob names. *)
Definition init : list string :=
  [ "map[string]interface {}"; "*osin.DefaultClient";
    "osin.AuthorizeData"; "osin.AccessData" ].

(** [gob.NewEncoder(&buf).Encode(v)] for the three shapes the store
    encodes, and [gob.NewDecoder(buf).Decode(v)] for the three receivers
    it decodes into.  A decoder takes the receiver and returns it filled
    in. *)
Class Codec : Type := {
  EncodeClient : osin.Client -> error + string;
  EncodeAuthorizeData : AuthorizeData.t -> error + string;
  EncodeAccessData : AccessData.t -> error + string;
  DecodeDefaultClient :
    string -> osin.DefaultClient -> osin.DefaultClient * option error;
  DecodeAuthorizeData :
    string -> AuthorizeData.t -> AuthorizeData.t * option error;
  DecodeAccessData :
    string -> AccessData.t -> AccessData.t * option error;
}.

Class Encodable (T : Type) : Type := Encode : T -> error + string.
Class Decodable (T : Type) : Type := Decode : string -> T -> T * option error.

#[global] Instance encodable_Client `{Codec} : Encodable osin.Client :=
  EncodeClient.
#[global] Instance encodable_AuthorizeData `{Codec} : Encodable AuthorizeData.t :=
  EncodeAuthorizeData.
#[global] Instance encodable_AccessData `{Codec} : Encodable AccessData.t :=
  EncodeAccessData.
#[global] Instance decodable_DefaultClient `{Codec} : Decodable osin.DefaultClient :=
  DecodeDefaultClient.
#[global] Instance decodable_AuthorizeData `{Codec} : Decodable AuthorizeData.t :=
  DecodeAuthorizeData.
#[global] Instance decodable_AccessData `{Codec} : Decodable AccessData.t :=
  DecodeAccessData.

(** A client reference gob carries faithfully: nil or a [*DefaultClient]. *)
Definition plainClient (c : option osin.Client) : Prop :=
  match c with
  | Some (osin.Custom _) => False
  | _ => True
  end.

Definition plainAuthorize (d : AuthorizeData.t) : Prop :=
  plainClient (AuthorizeData.Client d).

Definition plainAccess (d : AccessData.t) : Prop :=
  plainClient (AccessData.Client d) /\
  match AccessData.AuthorizeData d with
  | Some a => plainAuthorize a
  | None => True
  end.

(** What the store assumes of the codec: a value that encodes decodes
    back, into a zero receiver, without error; the two tokens of an access
    record always come back unchanged, and records whose client
    references are default clients come back whole. *)
Class Laws (C : Codec) : Prop := {
  decode_encode_client : forall c b,
    EncodeClient (osin.PtrDefaultClient c) = inr b ->
    DecodeDefaultClient b zeroDefaultClient = (c, None);
  decode_encode_authorize : forall d b,
    plainAuthorize d ->
    EncodeAuthorizeData d = inr b ->
    DecodeAuthorizeData b AuthorizeData.zero = (d, None);
  decode_encode_access : forall d b,
    EncodeAccessData d = inr b ->
    exists d',
      DecodeAccessData b AccessData.zero = (d', None) /\
      AccessData.AccessToken d' = AccessData.AccessToken d /\
      AccessData.RefreshToken d' = AccessData.RefreshToken d /\
      (plainAccess d -> d' = d);
}.

End gob.

(** * The store: storage.go *)

(** [Storage]; the pool is the [World] every call runs in. *)
Record Storage : Type := New { keyPrefix : string }.

Definition makeKey (s : Storage) (namespace id : string) : string :=
  fmt.Sprintf "%s:%s:%s" [keyPrefix s; namespace; id].

Section Store.

Context {codec : gob.Codec}.

Definition encode {T : Type} `{gob.Encodable T} (v : T) : string * option error :=
  match gob.Encode v with
  | inl err => ("", errors.Wrap (Some err) "unable to encode")
  | inr buf => (buf, None)
  end.

Definition decode {T : Type} `{gob.Decodable T} (data : string) (v : T)
  : T * option error :=
  let '(v', err) := gob.Decode data v in
  (v', errors.Wrap err "unable to decode").

(** CreateClient inserts a new client *)
Definition CreateClient (s : Storage) (client : osin.Client) : M (option error) :=
  let '(payload, err) := encode client in
  match err with
  | Some _ => mret (errors.Wrap err "failed to encode client")
  | None =>
      '(_, err) ← Do (redis.SET (makeKey s "client" (osin.GetId client)) payload);
      mret (errors.Wrap err "failed to save client")
  end.

(** GetClient gets a client by ID *)
Definition GetClient (s : Storage) (id : string)
  : M (option osin.Client * option error) :=
  reply ← Do (redis.GET (makeKey s "client" id));
  let '(clientGob, err) := redis.Bytes reply in
  match err with
  | Some _ => mret (None, errors.Wrap err "failed to get client gob")
  | None =>
      let '(client, err) := decode clientGob zeroDefaultClient in
      mret (Some (osin.PtrDefaultClient client),
            errors.Wrap err "failed to decode client gob")
  end.

(** UpdateClient updates a client *)
Definition UpdateClient (s : Storage) (client : osin.Client) : M (option error) :=
  err ← CreateClient s client;
  mret (errors.Wrap err "failed to update client").

(** DeleteClient deletes given client *)
Definition DeleteClient (s : Storage) (client : osin.Client) : M (option error) :=
  '(_, err) ← Do (redis.DEL (makeKey s "client" (osin.GetId client)));
  mret (errors.Wrap err "failed to delete client").

(** SaveAuthorize saves authorize data. *)
Definition SaveAuthorize (s : Storage) (data : AuthorizeData.t) : M (option error) :=
  let '(payload, err) := encode data in
  match err with
  | Some _ => mret (errors.Wrap err "failed to encode data")
  | None =>
      '(_, err) ← Do (redis.SETEX (makeKey s "auth" (AuthorizeData.Code data))
                        (AuthorizeData.ExpiresIn data) payload);
      mret (errors.Wrap err "failed to set auth")
  end.

(** LoadAuthorize looks up AuthorizeData by a code. *)
Definition LoadAuthorize (s : Storage) (code : string)
  : M (option AuthorizeData.t * option error) :=
  '(rawAuthGob, err) ← Do (redis.GET (makeKey s "auth" code));
  match err with
  | Some _ => mret (None, errors.Wrap err "unable to GET auth")
  | None =>
      match rawAuthGob with
      | redis.Nil => mret (None, errors.New "token is expired")
      | _ =>
          let '(authGob, _) := redis.Bytes (rawAuthGob, err) in
          let '(auth, err) := decode authGob AuthorizeData.zero in
          mret (Some auth, errors.Wrap err "failed to decode auth")
      end
  end.

(** RemoveAuthorize revokes or deletes the authorization code. *)
Definition RemoveAuthorize (s : Storage) (code : string) : M (option error) :=
  '(_, err) ← Do (redis.DEL (makeKey s "auth" code));
  mret (errors.Wrap err "failed to delete auth").

(** SaveAccess creates AccessData. *)
Definition SaveAccess (s : Storage) (data : AccessData.t) : M (option error) :=
  let '(payload, err) := encode data in
  match err with
  | Some _ => mret (errors.Wrap err "failed to encode access")
  | None =>
      accessID ← uuid.NewV4;
      '(_, err) ← Do (redis.SET (makeKey s "access" accessID) payload);
      match err with
      | Some _ => mret (errors.Wrap err "failed to save access")
      | None =>
          '(_, err) ← Do (redis.SET (makeKey s "access_token"
                                      (AccessData.AccessToken data)) accessID);
          match err with
          | Some _ => mret (errors.Wrap err "failed to register access token")
          | None =>
              '(_, err) ← Do (redis.SET (makeKey s "refresh_token"
                                          (AccessData.RefreshToken data)) accessID);
              mret (errors.Wrap err "failed to register refresh token")
          end
      end
  end.

Definition loadAccessImpl (s : Storage) (key : string)
  : M (option AccessData.t * option error) :=
  reply ← Do (redis.GET key);
  let '(accessID, err) := redis.String reply in
  match err with
  | Some _ =>
      mret (None, errors.Wrapf err "unable to get access ID for key %s" [key])
  | None =>
      let accessIDKey := makeKey s "access" accessID in
      reply ← Do (redis.GET accessIDKey);
      let '(accessGob, err) := redis.Bytes reply in
      match err with
      | Some _ =>
          mret (None, errors.Wrapf err "unable to get access gob for key %s"
                        [accessIDKey])
      | None =>
          let '(access, err) := decode accessGob AccessData.zero in
          mret (Some access, errors.Wrap err "failed to decode access gob")
      end
  end.

Definition refreshAccessClients (s : Storage) (access : AccessData.t)
  : M (option AccessData.t * option error) :=
  match AccessData.Client access with
  | None => panic "invalid memory address or nil pointer dereference"
  | Some c =>
      '(client, err) ← GetClient s (osin.GetId c);
      let access := AccessData.withClient access client in
      match err with
      | Some _ => mret (None, errors.Wrap err "unable to get client for access")
      | None =>
          match AccessData.AuthorizeData access with
          | Some authorize =>
              match AuthorizeData.Client authorize with
              | Some c' =>
                  '(client', err) ← GetClient s (osin.GetId c');
                  let access :=
                    AccessData.withAuthorizeData access
                      (Some (AuthorizeData.withClient authorize client')) in
                  match err with
                  | Some _ =>
                      mret (None, errors.Wrap err
                                    "unable to get client for access authorize data")
                  | None => mret (Some access, None)
                  end
              | None => mret (Some access, None)
              end
          | None => mret (Some access, None)
          end
      end
  end.

Definition loadAndRefreshAccess (s : Storage) (key : string)
  : M (option AccessData.t * option error) :=
  '(access, err) ← loadAccessImpl s key;
  match err, access with
  | Some _, _ => mret (None, errors.Wrapf err "failed to load access for %s" [key])
  | None, Some access => refreshAccessClients s access
  | None, None => panic "invalid memory address or nil pointer dereference"
  end.

Definition removeAccessImpl (s : Storage) (key : string) : M (option error) :=
  reply ← Do (redis.GET key);
  let '(accessID, err) := redis.String reply in
  match err with
  | Some _ => mret (errors.Wrapf err "failed to get access for %s" [key])
  | None =>
      '(access, err) ← loadAccessImpl s key;
      match err, access with
      | Some _, _ => mret (errors.Wrap err "unable to load access for removal")
      | None, None => panic "invalid memory address or nil pointer dereference"
      | None, Some access =>
          let accessKey := makeKey s "access" accessID in
          '(_, err) ← Do (redis.DEL accessKey);
          match err with
          | Some _ =>
              mret (errors.Wrapf err "failed to delete access for %s" [accessKey])
          | None =>
              let accessTokenKey :=
                makeKey s "access_token" (AccessData.AccessToken access) in
              '(_, err) ← Do (redis.DEL accessTokenKey);
              match err with
              | Some _ =>
                  mret (errors.Wrapf err "failed to deregister access_token for %s"
                          [accessTokenKey])
              | None =>
                  let refreshTokenKey :=
                    makeKey s "refresh_token" (AccessData.RefreshToken access) in
                  '(_, err) ← Do (redis.DEL refreshTokenKey);
                  mret (errors.Wrapf err "failed to deregister refresh_token for %s"
                          [refreshTokenKey])
              end
          end
      end
  end.

(** LoadAccess gets access data with given access token *)
Definition LoadAccess (s : Storage) (token : string)
  : M (option AccessData.t * option error) :=
  loadAndRefreshAccess s (makeKey s "access_token" token).

(** RemoveAccess deletes AccessData with given access token *)
Definition RemoveAccess (s : Storage) (token : string) : M (option error) :=
  removeAccessImpl s (makeKey s "access_token" token).

(** LoadRefresh gets access data with given refresh token *)
Definition LoadRefresh (s : Storage) (token : string)
  : M (option AccessData.t * option error) :=
  loadAndRefreshAccess s (makeKey s "refresh_token" token).

(** RemoveRefresh deletes AccessData with given refresh token *)
Definition RemoveRefresh (s : Storage) (token : string) : M (option error) :=
  removeAccessImpl s (makeKey s "refresh_token" token).

End Store.

(** * A reference codec

    An executable codec with gob's observable behaviour on the store's
    shapes: a value held in an interface field is only encoded when its
    type is registered, a value passed to [Encode] directly is encoded by
    its exported fields whatever its type, and a decoder fills the fields
    of the receiver whose names match.  It shows that [gob.Laws] can be
    met and lets the store run. *)

Module refcodec.

(** Frames on the wire. *)
Inductive frame : Type :=
| ClientFrame (fields : list (string * string)) (userData : option (option boxed))
| AuthorizeFrame (d : AuthorizeData.t)
| AccessFrame (d : AccessData.t).

#[global] Instance boxed_eq_dec : EqDecision boxed.
Proof. solve_decision. Defined.
#[global] Instance DefaultClient_eq_dec : EqDecision osin.DefaultClient.
Proof. solve_decision. Defined.
#[global] Instance CustomClient_eq_dec : EqDecision osin.CustomClient.
Proof. solve_decision. Defined.
#[global] Instance Client_eq_dec : EqDecision osin.Client.
Proof. solve_decision. Defined.
#[global] Instance AuthorizeData_eq_dec : EqDecision AuthorizeData.t.
Proof. solve_decision. Defined.
#[global] Instance AccessData_eq_dec : EqDecision AccessData.t.
Proof. solve_decision. Defined.
#[global] Instance frame_eq_dec : EqDecision frame.
Proof. solve_decision. Defined.

#[global] Instance boxed_countable : Countable boxed.
Proof.
  refine (inj_countable' (fun b => (typeName b, contents b))
            (fun p => Box p.1 p.2) _).
  by intros [].
Defined.

#[global] Instance DefaultClient_countable : Countable osin.DefaultClient.
Proof.
  refine (inj_countable'
            (fun c => (osin.Id c, osin.Secret c, osin.RedirectUri c, osin.UserData c))
            (fun p => osin.mkDefaultClient p.1.1.1 p.1.1.2 p.1.2 p.2) _).
  by intros [].
Defined.

#[global] Instance CustomClient_countable : Countable osin.CustomClient.
Proof.
  refine (inj_countable'
            (fun c => (osin.TypeName c, osin.Fields c, osin.getId c,
                       osin.getSecret c, osin.getRedirectUri c, osin.getUserData c))
            (fun p => osin.mkCustomClient p.1.1.1.1.1 p.1.1.1.1.2 p.1.1.1.2
                        p.1.1.2 p.1.2 p.2) _).
  by intros [].
Defined.

#[global] Instance Client_countable : Countable osin.Client.
Proof.
  refine (inj_countable'
            (fun c => match c with
                      | osin.PtrDefaultClient d => inl d
                      | osin.Custom o => inr o
                      end)
            (fun x => match x with
                      | inl d => osin.PtrDefaultClient d
                      | inr o => osin.Custom o
                      end) _).
  by intros [].
Defined.

#[global] Instance AuthorizeData_countable : Countable AuthorizeData.t.
Proof.
  refine (inj_countable'
            (fun d => (AuthorizeData.Client d, AuthorizeData.Code d,
                       AuthorizeData.ExpiresIn d, AuthorizeData.Scope d,
                       AuthorizeData.State d))
            (fun p => AuthorizeData.mk p.1.1.1.1 p.1.1.1.2 p.1.1.2 p.1.2 p.2) _).
  by intros [].
Defined.

#[global] Instance AccessData_countable : Countable AccessData.t.
Proof.
  refine (inj_countable'
            (fun d => (AccessData.Client d, AccessData.AuthorizeData d,
                       AccessData.AccessToken d, AccessData.RefreshToken d,
                       AccessData.ExpiresIn d, AccessData.Scope d))
            (fun p => AccessData.mk p.1.1.1.1.1 p.1.1.1.1.2 p.1.1.1.2
                        p.1.1.2 p.1.2 p.2) _).
  by intros [].
Defined.

#[global] Instance frame_countable : Countable frame.
Proof.
  refine (inj_countable'
            (fun f => match f with
                      | ClientFrame fs ud => inl (fs, ud)
                      | AuthorizeFrame d => inr (inl d)
                      | AccessFrame d => inr (inr d)
                      end)
            (fun x => match x with
                      | inl (fs, ud) => ClientFrame fs ud
                      | inr (inl d) => AuthorizeFrame d
                      | inr (inr d) => AccessFrame d
                      end) _).
  by intros [].
Defined.

(** A frame number written out as a string of binary digits. *)
Fixpoint digits (p : positive) : string :=
  match p with
  | xH => EmptyString
  | xO q => String "0" (digits q)
  | xI q => String "1" (digits q)
  end.

Fixpoint undigits (s : string) : option positive :=
  match s with
  | EmptyString => Some xH
  | String c rest =>
      if Ascii.eqb c "0" then xO <$> undigits rest
      else if Ascii.eqb c "1" then xI <$> undigits rest
      else None
  end.

Definition marshal (f : frame) : string := digits (countable.encode f).

Definition unmarshal (s : string) : option frame :=
  undigits s ≫= countable.decode.

(** The names gob knows: those [init] registers and the basic types. *)
Definition registered (ty : string) : bool :=
  bool_decide
    (ty ∈ (gob.init ++ ["bool"; "int"; "int64"; "float64"; "string"; "[]byte"])%list).

Definition sendable (v : option boxed) : option error :=
  match v with
  | Some b =>
      if registered (typeName b) then None
      else Some (errors.ErrGob
                   ("gob: type not registered for interface: " +:+ typeName b))
  | None => None
  end.

(** A client held in an interface field. *)
Definition sendableClient (c : option osin.Client) : option error :=
  match c with
  | Some (osin.PtrDefaultClient d) => sendable (osin.UserData d)
  | Some (osin.Custom o) =>
      Some (errors.ErrGob
              ("gob: type not registered for interface: " +:+ osin.TypeName o))
  | None => None
  end.

Fixpoint field (name : string) (fields : list (string * string)) : option string :=
  match fields with
  | [] => None
  | (n, v) :: rest => if String.eqb n name then Some v else field name rest
  end.

Definition EncodeClient (c : osin.Client) : error + string :=
  match c with
  | osin.PtrDefaultClient d =>
      match sendable (osin.UserData d) with
      | Some e => inl e
      | None =>
          inr (marshal (ClientFrame
                          [("Id", osin.Id d); ("Secret", osin.Secret d);
                           ("RedirectUri", osin.RedirectUri d)]
                          (Some (osin.UserData d))))
      end
  | osin.Custom o => inr (marshal (ClientFrame (osin.Fields o) None))
  end.

Definition EncodeAuthorizeData (d : AuthorizeData.t) : error + string :=
  match sendableClient (AuthorizeData.Client d) with
  | Some e => inl e
  | None => inr (marshal (AuthorizeFrame d))
  end.

Definition EncodeAccessData (d : AccessData.t) : error + string :=
  match sendableClient (AccessData.Client d) with
  | Some e => inl e
  | None =>
      match from_option (fun a => sendableClient (AuthorizeData.Client a)) None
              (AccessData.AuthorizeData d) with
      | Some e => inl e
      | None => inr (marshal (AccessFrame d))
      end
  end.

Definition badData : option error := Some (errors.ErrGob "unexpected EOF").
Definition mismatch (receiver : string) : option error :=
  Some (errors.ErrGob
          ("gob: type mismatch: no fields matched compiling decoder for "
             +:+ receiver)).

Definition DecodeDefaultClient (b : string) (v : osin.DefaultClient)
  : osin.DefaultClient * option error :=
  match unmarshal b with
  | Some (ClientFrame fs ud) =>
      match field "Id" fs, field "Secret" fs, field "RedirectUri" fs, ud with
      | None, None, None, None => (v, mismatch "DefaultClient")
      | id, secret, uri, ud =>
          (osin.mkDefaultClient
             (default (osin.Id v) id) (default (osin.Secret v) secret)
             (default (osin.RedirectUri v) uri) (default (osin.UserData v) ud),
           None)
      end
  | Some _ => (v, mismatch "DefaultClient")
  | None => (v, badData)
  end.

Definition DecodeAuthorizeData (b : string) (v : AuthorizeData.t)
  : AuthorizeData.t * option error :=
  match unmarshal b with
  | Some (AuthorizeFrame d) => (d, None)
  | Some _ => (v, mismatch "AuthorizeData")
  | None => (v, badData)
  end.

Definition DecodeAccessData (b : string) (v : AccessData.t)
  : AccessData.t * option error :=
  match unmarshal b with
  | Some (AccessFrame d) => (d, None)
  | Some _ => (v, mismatch "AccessData")
  | None => (v, badData)
  end.

Definition codec : gob.Codec := {|
  gob.EncodeClient := EncodeClient;
  gob.EncodeAuthorizeData := EncodeAuthorizeData;
  gob.EncodeAccessData := EncodeAccessData;
  gob.DecodeDefaultClient := DecodeDefaultClient;
  gob.DecodeAuthorizeData := DecodeAuthorizeData;
  gob.DecodeAccessData := DecodeAccessData;
|}.

End refcodec.

(** * Vocabulary of the properties *)

(** The five record families of the key space, and the tags [storage.go]
    passes to [makeKey] for them. *)
Module namespace.

Inductive t : Type :=
| client
| auth
| access
| access_token
| refresh_token.

Definition tag (n : t) : string :=
  match n with
  | client => "client"
  | auth => "auth"
  | access => "access"
  | access_token => "access_token"
  | refresh_token => "refresh_token"
  end.

End namespace.

(** Whether character [c] occurs in [s]. *)
Fixpoint occurs (c : ascii) (s : string) : bool :=
  match s with
  | EmptyString => false
  | String d rest => (Ascii.eqb d c || occurs c rest)%bool
  end.

(** The three keys of one saved access record. *)
Definition accessKey (s : Storage) (accessID : string) : string :=
  makeKey s "access" accessID.
Definition accessTokenKey (s : Storage) (data : AccessData.t) : string :=
  makeKey s "access_token" (AccessData.AccessToken data).
Definition refreshTokenKey (s : Storage) (data : AccessData.t) : string :=
  makeKey s "refresh_token" (AccessData.RefreshToken data).

(** The three-way link of a saved access record: the record under its
    [accessID] and two pointers to that [accessID]. *)
Definition linked (s : Storage) (w : World) (data : AccessData.t)
  (accessID payload : string) : Prop :=
  stored w (accessKey s accessID) = Some payload /\
  stored w (accessTokenKey s data) = Some accessID /\
  stored w (refreshTokenKey s data) = Some accessID.

Definition accessKeys (s : Storage) (data : AccessData.t) (accessID : string)
  : list string :=
  [accessKey s accessID; accessTokenKey s data; refreshTokenKey s data].

(** World [w'] serves, for each key of [keys], what [w] serves. *)
Definition preserved (keys : list string) (w w' : World) : Prop :=
  Forall (fun k => stored w' k = stored w k) keys.

(** A world with a reachable engine: no round-trip is scheduled to fail. *)
Definition healthy (w : World) : Prop := faults w = [].

(** [data] with its two client references blanked: what is left are the
    fields hydration never touches. *)
Definition withoutClients (data : AccessData.t) : AccessData.t :=
  AccessData.withAuthorizeData (AccessData.withClient data None)
    ((fun a => AuthorizeData.withClient a None) <$> AccessData.AuthorizeData data).

Section Hydration.

Context {codec : gob.Codec}.

(** The client the registry holds under [id] in [w], as a load sees it. *)
Definition registry (s : Storage) (w : World) (id : string)
  : option osin.Client :=
  match stored w (makeKey s "client" id) with
  | Some b =>
      match decode b zeroDefaultClient with
      | (c, None) => Some (osin.PtrDefaultClient c)
      | (_, Some _) => None
      end
  | None => None
  end.

(** [data] with its client references replaced by what [reg] holds for
    their identities. *)
Definition hydrate (reg : string -> option osin.Client) (data : AccessData.t)
  : AccessData.t :=
  let data' :=
    AccessData.withClient data
      (c ← AccessData.Client data; reg (osin.GetId c)) in
  match AccessData.AuthorizeData data with
  | Some a =>
      match AuthorizeData.Client a with
      | Some c' =>
          AccessData.withAuthorizeData data'
            (Some (AuthorizeData.withClient a (reg (osin.GetId c'))))
      | None => data'
      end
  | None => data'
  end.

(** Every client [data] refers to is present in [reg]; the record's own
    client reference is not nil. *)
Definition hydratable (reg : string -> option osin.Client) (data : AccessData.t)
  : Prop :=
  (exists c, AccessData.Client data = Some c /\ is_Some (reg (osin.GetId c))) /\
  (forall a c', AccessData.AuthorizeData data = Some a ->
                AuthorizeData.Client a = Some c' ->
                is_Some (reg (osin.GetId c'))).

End Hydration.

(** * Sample inputs *)

Module sample.

Definition store : Storage := New "osin".

(** An empty, reachable engine at instant 0. *)
Definition world : World :=
  mkWorld ∅ 0 []
    (fun n => match n with
              | O => "7c9e6679-7425-40de-944b-e07fc1f90ae7"
              | S _ => "16fd2706-8baf-433b-82eb-8c7fada847da"
              end) 0.

Definition c1 : osin.DefaultClient :=
  osin.mkDefaultClient "c1" "s3cret" "https://app.example/cb" None.

Definition c1' : osin.DefaultClient :=
  osin.mkDefaultClient "c1" "rotated" "https://app.example/cb2" None.

(** A client of another implementation: it answers like [c1] and carries
    one more exported field. *)
Definition tenant : osin.Client :=
  osin.Custom
    (osin.mkCustomClient "*main.TenantClient"
       [("Id", "c1"); ("Secret", "s3cret");
        ("RedirectUri", "https://app.example/cb"); ("Tenant", "acme")]
       "c1" "s3cret" "https://app.example/cb" None).

Definition code1 : AuthorizeData.t :=
  AuthorizeData.mk (Some (osin.PtrDefaultClient c1)) "code1" 600 "read" "xyz".

(** An authorization code issued to a client whose type gob was never
    told about. *)
Definition foreign : AuthorizeData.t :=
  AuthorizeData.mk (Some tenant) "code2" 600 "read" "xyz".

Definition access1 : AccessData.t :=
  AccessData.mk (Some (osin.PtrDefaultClient c1)) (Some code1)
    "at1" "rt1" 3600 "read".

(** An access record without a refresh token. *)
Definition blank : AccessData.t :=
  AccessData.mk (Some (osin.PtrDefaultClient c1)) None "at2" "" 3600 "read".

(** The world after [c1] was registered, *)
Abbreviation registered :=
  (CreateClient (codec := refcodec.codec) store (osin.PtrDefaultClient c1) world).2.

(** ... and [access1] was saved, *)
Abbreviation saved :=
  (SaveAccess (codec := refcodec.codec) store access1 registered).2.

(** ... and the client was then updated to [c1'], *)
Abbreviation updated :=
  (UpdateClient (codec := refcodec.codec) store (osin.PtrDefaultClient c1') saved).2.

(** ... or the record was instead removed through its access token. *)
Abbreviation removed :=
  (RemoveAccess (codec := refcodec.codec) store
     (AccessData.AccessToken access1) saved).2.

End sample.

(** * Vocabulary of the further properties *)

(** [Clone] hands out the store itself. *)
Definition Clone (s : Storage) : Storage := s.

(** Every run of [m], whatever its outcome, leaves a world that [R] relates
    to the world it started in. *)
Definition keeps {A : Type} (R : World -> World -> Prop) (m : M A) : Prop :=
  forall w o w', m w = (o, w') -> R w w'.

(** The same key space at the same instant. *)
Definition sameKeySpace (w w' : World) : Prop :=
  db w' = db w /\ clock w' = clock w.

(** The record families [fams] of store [s] serve in [w'] what they serve
    in [w]. *)
Definition sameFamilies (s : Storage) (fams : list namespace.t) (w w' : World)
  : Prop :=
  forall n id, n ∈ fams ->
    stored w' (makeKey s (namespace.tag n) id)
    = stored w (makeKey s (namespace.tag n) id).

(** The key a command addresses. *)
Definition keyOf (cmd : redis.command) : string :=
  match cmd with
  | redis.GET k => k
  | redis.SET k _ => k
  | redis.SETEX k _ _ => k
  | redis.DEL k => k
  end.

(** Further sample inputs. *)
Module scenario.

(** A default client whose extension value is of a type gob was never told
    about. *)
Definition exotic : osin.DefaultClient :=
  osin.mkDefaultClient "c9" "s3cret" "https://app.example/cb"
    (Some (Box "main.Profile" "{}")).

(** An access record issued to a client of another implementation. *)
Definition foreignAccess : AccessData.t :=
  AccessData.mk (Some sample.tenant) None "at9" "rt9" 3600 "read".

(** An access record without a client. *)
Definition orphan : AccessData.t :=
  AccessData.mk None None "at3" "rt3" 3600 "read".

(** A second record sharing the access token of [sample.access1]. *)
Definition reissued : AccessData.t :=
  AccessData.mk (Some (osin.PtrDefaultClient sample.c1)) None
    "at1" "rt4" 7200 "write".

(** A second record without a refresh token, as [sample.blank]. *)
Definition blank2 : AccessData.t :=
  AccessData.mk (Some (osin.PtrDefaultClient sample.c1)) None "at5" "" 3600 "read".

(** An engine holding bytes that are no gob under a client key and under
    a code key. *)
Definition corrupt : World :=
  mkWorld (<["osin:client:c1" := redis.Entry "garbage" None]>
             (<["osin:auth:code1" := redis.Entry "garbage" None]> ∅))
    0 [] (fun _ => "7c9e6679-7425-40de-944b-e07fc1f90ae7") 0.

(** [sample.world] with the next round-trip failing, *)
Definition down : World :=
  mkWorld ∅ 0 [true] (entropy sample.world) 0.

(** ... with the second one failing, *)
Definition flaky2 : World :=
  mkWorld ∅ 0 [false; true] (entropy sample.world) 0.

(** ... and with the third one failing. *)
Definition flaky3 : World :=
  mkWorld ∅ 0 [false; false; true] (entropy sample.world) 0.

(** A pointer whose record is gone. *)
Definition dangling : World :=
  mkWorld (<["osin:access_token:at1" := redis.Entry "7c9e6679" None]> ∅)
    0 [] (entropy sample.world) 0.

(** The world after [sample.code1] was saved, *)
Abbreviation coded :=
  (SaveAuthorize (codec := refcodec.codec) sample.store sample.code1 sample.world).2.

(** ... and then removed. *)
Abbreviation consumed :=
  (RemoveAuthorize sample.store (AuthorizeData.Code sample.code1) coded).2.

(** The world after [sample.access1] was saved and removed through its
    refresh token. *)
Abbreviation refreshRemoved :=
  (RemoveRefresh (codec := refcodec.codec) sample.store
     (AccessData.RefreshToken sample.access1) sample.saved).2.

(** The world after [sample.access1] was saved and its client deleted. *)
Abbreviation unregistered :=
  (DeleteClient sample.store (osin.PtrDefaultClient sample.c1) sample.saved).2.

(** The world after [orphan] was saved. *)
Abbreviation orphaned :=
  (SaveAccess (codec := refcodec.codec) sample.store orphan sample.world).2.

(** The world after [sample.access1] and then [reissued] were saved. *)
Abbreviation resaved :=
  (SaveAccess (codec := refcodec.codec) sample.store reissued sample.saved).2.

(** The world after [sample.blank] and then [blank2] were saved, *)
Abbreviation blank1saved :=
  (SaveAccess (codec := refcodec.codec) sample.store sample.blank sample.registered).2.
Abbreviation blank2saved :=
  (SaveAccess (codec := refcodec.codec) sample.store blank2 blank1saved).2.

(** ... and the first of the two was removed. *)
Abbreviation blank1removed :=
  (RemoveAccess (codec := refcodec.codec) sample.store
     (AccessData.AccessToken sample.blank) blank2saved).2.

(** The world after [sample.c1] was registered and deleted again. *)
Abbreviation deleted :=
  (DeleteClient sample.store (osin.PtrDefaultClient sample.c1) sample.registered).2.

(** An engine whose eighth round-trip fails, and the world after
    [sample.access1] was saved in it: the fifth round-trip from there
    fails. *)
Definition brittle : World :=
  mkWorld ∅ 0 [false; false; false; false; false; false; false; true]
    (entropy sample.world) 0.

Abbreviation brittleSaved :=
  (SaveAccess (codec := refcodec.codec) sample.store sample.access1 brittle).2.

End scenario.

(** * Properties *)

(** ** Strings and keys *)

Lemma append_nil (b : string) : "" +:+ b = b.
Proof. reflexivity. Qed.

Lemma append_cons (c : ascii) (a b : string) :
  String c a +:+ b = String c (a +:+ b).
Proof. reflexivity. Qed.

Lemma append_empty_r (a : string) : a +:+ "" = a.
Proof.
  induction a as [|c a IH]; [done |]. by rewrite append_cons, IH.
Qed.

Lemma makeKey_eq (s : Storage) (ns id : string) :
  makeKey s ns id = keyPrefix s +:+ ":" +:+ ns +:+ ":" +:+ id.
Proof. unfold makeKey. cbn. by rewrite append_empty_r. Qed.

(** Two tag-delimiter-identifier strings with delimiter-free tags are equal
    only if tags and identifiers are. *)
Lemma tagged_inj (n1 n2 id1 id2 : string) :
  occurs ":" n1 = false -> occurs ":" n2 = false ->
  n1 +:+ ":" +:+ id1 = n2 +:+ ":" +:+ id2 ->
  n1 = n2 /\ id1 = id2.
Proof.
  revert n2. induction n1 as [|c n1 IH]; intros [|d n2];
    rewrite ?append_cons, ?append_nil; simpl.
  - intros _ _ [= ->]. done.
  - intros _ Hd [= <- _]. by rewrite Ascii.eqb_refl in Hd.
  - intros Hc _ [= -> _]. by rewrite Ascii.eqb_refl in Hc.
  - intros Hc Hd [= -> H].
    apply orb_false_iff in Hc as [_ Hc]. apply orb_false_iff in Hd as [_ Hd].
    destruct (IH n2 Hc Hd H) as [-> ->]. done.
Qed.

Lemma makeKey_inj (s : Storage) (n1 n2 id1 id2 : string) :
  occurs ":" n1 = false -> occurs ":" n2 = false ->
  makeKey s n1 id1 = makeKey s n2 id2 ->
  n1 = n2 /\ id1 = id2.
Proof.
  intros H1 H2. rewrite !makeKey_eq. intros H.
  apply (inj (String.append (keyPrefix s))) in H.
  rewrite !append_cons, !append_nil in H. injection H as H.
  by apply tagged_inj.
Qed.

Lemma tag_inj (n1 n2 : namespace.t) : namespace.tag n1 = namespace.tag n2 -> n1 = n2.
Proof. by destruct n1, n2. Qed.

Lemma tag_delimiter_free (n : namespace.t) :
  occurs ":" (namespace.tag n) = false.
Proof. by destruct n. Qed.

(** Keys of different families never meet. *)
Lemma makeKey_family (s : Storage) (n1 n2 : namespace.t) (id1 id2 : string) :
  n1 ≠ n2 ->
  makeKey s (namespace.tag n1) id1 ≠ makeKey s (namespace.tag n2) id2.
Proof.
  intros Hne Heq.
  apply makeKey_inj in Heq as [Hn _]; auto using tag_delimiter_free.
  by apply Hne, tag_inj.
Qed.

(** C5. [makeKey] is injective on the key space of a store: two (namespace,
    identifier) pairs, the namespace being one of the five record families
    and the identifiers arbitrary strings, that yield the same
    fully-qualified key are the same pair. *)
Theorem makeKey_injective (s : Storage) (n1 n2 : namespace.t) (id1 id2 : string) :
  (n1, id1) ≠ (n2, id2) ->
  makeKey s (namespace.tag n1) id1 ≠ makeKey s (namespace.tag n2) id2.
Proof.
  intros Hne Heq. apply Hne.
  apply makeKey_inj in Heq as [Hn ->]; auto using tag_delimiter_free.
  by rewrite (tag_inj _ _ Hn).
Qed.

Lemma makeKey_injective_witness :
  (namespace.access, "token:1") ≠ (namespace.access_token, "1") /\
  makeKey (New "osin") (namespace.tag namespace.access) "token:1"
  ≠ makeKey (New "osin") (namespace.tag namespace.access_token) "1".
Proof. split; [discriminate | apply makeKey_injective; discriminate]. Defined.

(** Outside the five families the scheme has collisions: a namespace that
    itself contains the delimiter can imitate another pair.  The store
    never builds such a namespace. *)
Lemma makeKey_delimiter_collision :
  makeKey (New "osin") "access" "token:1" = makeKey (New "osin") "access:token" "1".
Proof. reflexivity. Qed.

(** ** Errors *)

Lemma Wrap_is_None (err : option error) (msg : string) :
  errors.Wrap err msg = None <-> err = None.
Proof. by destruct err. Qed.

Lemma NotFound_Wrap (err : option error) (msg : string) :
  NotFound err -> NotFound (errors.Wrap err msg).
Proof. intros (e & -> & H). by exists (errors.ErrWrap e msg). Qed.

Lemma BackendError_not_NotFound (err : option error) :
  BackendError err -> ~ NotFound err.
Proof. intros (e & m & -> & H) (e' & [= <-] & H'). congruence. Qed.

(** ** Round-trips *)

Lemma run_bind {A B : Type} (m : M A) (k : A -> M B) (w : World) :
  (m ≫= k) w =
  match m w with
  | (Ret a, w') => k a w'
  | (Panic msg, w') => (Panic msg, w')
  end.
Proof. reflexivity. Qed.

Lemma run_ret {A : Type} (a : A) (w : World) : mret (M := M) a w = (Ret a, w).
Proof. reflexivity. Qed.

(** A run is its outcome paired with the world it leaves. *)
Lemma run_split {A : Type} (m : M A) (w : World) (r : outcome A) :
  (m w).1 = r -> m w = (r, (m w).2).
Proof. intros <-. by destruct (m w). Qed.

Lemma run_Do {A : Type} (cmd : redis.command)
  (k : redis.reply * option error -> M A) (w : World) :
  (Do cmd ≫= k) w = k (round cmd w).1 (after w (round cmd w).2).
Proof. unfold mbind, M_bind, Do. by destruct (round cmd w). Qed.

Lemma round_faulty (cmd : redis.command) (w : World) :
  faulty w = true ->
  round cmd w = ((redis.Nil, Some (errors.ErrConn "i/o failure")), db w).
Proof. unfold round. by intros ->. Qed.

Lemma round_GET (k : string) (w : World) :
  faulty w = false ->
  round (redis.GET k) w =
  ((match stored w k with Some v => redis.Bulk v | None => redis.Nil end, None),
   db w).
Proof. unfold round, stored. intros ->. simpl. by destruct redis.get. Qed.

Lemma round_SET (k v : string) (w : World) :
  faulty w = false ->
  round (redis.SET k v) w =
  ((redis.Status "OK", None), <[k := redis.Entry v None]> (db w)).
Proof. unfold round. by intros ->. Qed.

Lemma round_DEL (k : string) (w : World) :
  faulty w = false ->
  round (redis.DEL k) w =
  ((redis.Int (match stored w k with Some _ => 1 | None => 0 end), None),
   delete k (db w)).
Proof. unfold round. by intros ->. Qed.

Lemma round_SETEX (k : string) (secs : Z) (v : string) (w : World) :
  faulty w = false ->
  round (redis.SETEX k secs v) w =
  if secs <=? 0
  then ((redis.Nil, Some (errors.ErrConn "ERR invalid expire time in setex")), db w)
  else ((redis.Status "OK", None),
        <[k := redis.Entry v (Some (clock w + secs))]> (db w)).
Proof. unfold round. by intros ->. Qed.

Lemma healthy_faulty (w : World) : healthy w -> faulty w = false.
Proof. unfold healthy, faulty. by intros ->. Qed.

Lemma healthy_after (w : World) (d : gmap string redis.entry) :
  healthy w -> healthy (after w d).
Proof. unfold healthy, after. simpl. by intros ->. Qed.

Lemma after_same (w : World) : healthy w -> after w (db w) = w.
Proof. destruct w. unfold healthy, after. simpl. by intros ->. Qed.

Lemma db_after (w : World) (d : gmap string redis.entry) : db (after w d) = d.
Proof. reflexivity. Qed.

Lemma stored_after (w : World) (d : gmap string redis.entry) (k : string) :
  stored (after w d) k = redis.get d (clock w) k.
Proof. reflexivity. Qed.

Lemma stored_after_same (w : World) (k : string) :
  stored (after w (db w)) k = stored w k.
Proof. reflexivity. Qed.

Lemma get_insert (d : gmap string redis.entry) (c : Z) (k : string) (v : string) :
  redis.get (<[k := redis.Entry v None]> d) c k = Some v.
Proof. unfold redis.get. by rewrite lookup_insert_eq. Qed.

Lemma get_insert_ne (d : gmap string redis.entry) (c : Z) (k k' : string)
  (e : redis.entry) :
  k ≠ k' -> redis.get (<[k := e]> d) c k' = redis.get d c k'.
Proof. intros H. unfold redis.get. by rewrite lookup_insert_ne. Qed.

Lemma get_delete (d : gmap string redis.entry) (c : Z) (k : string) :
  redis.get (delete k d) c k = None.
Proof. unfold redis.get. by rewrite lookup_delete_eq. Qed.

Lemma get_delete_ne (d : gmap string redis.entry) (c : Z) (k k' : string) :
  k ≠ k' -> redis.get (delete k d) c k' = redis.get d c k'.
Proof. intros H. unfold redis.get. by rewrite lookup_delete_ne. Qed.

Lemma get_delete_None (d : gmap string redis.entry) (c : Z) (k k' : string) :
  redis.get d c k' = None -> redis.get (delete k d) c k' = None.
Proof.
  intros H. destruct (decide (k = k')) as [->|Hne];
    [apply get_delete | by rewrite get_delete_ne].
Qed.

(** ** The reference codec meets the laws *)

Lemma undigits_digits (p : positive) : refcodec.undigits (refcodec.digits p) = Some p.
Proof. induction p as [p IH|p IH|]; simpl; [by rewrite IH..|done]. Qed.

Lemma unmarshal_marshal (f : refcodec.frame) :
  refcodec.unmarshal (refcodec.marshal f) = Some f.
Proof.
  unfold refcodec.unmarshal, refcodec.marshal.
  rewrite undigits_digits. simpl. apply decode_encode.
Qed.

Lemma refcodec_client_roundtrip (c : osin.DefaultClient) (b : string) :
  refcodec.EncodeClient (osin.PtrDefaultClient c) = inr b ->
  refcodec.DecodeDefaultClient b zeroDefaultClient = (c, None).
Proof.
  unfold refcodec.EncodeClient, refcodec.DecodeDefaultClient.
  destruct (refcodec.sendable _); [done |]. intros [= <-].
  rewrite unmarshal_marshal. by destruct c.
Qed.

Lemma refcodec_laws : gob.Laws refcodec.codec.
Proof.
  split; simpl.
  - apply refcodec_client_roundtrip.
  - intros d b _. unfold refcodec.EncodeAuthorizeData, refcodec.DecodeAuthorizeData.
    destruct (refcodec.sendableClient _); [done |]. intros [= <-].
    by rewrite unmarshal_marshal.
  - intros d b. unfold refcodec.EncodeAccessData, refcodec.DecodeAccessData.
    destruct (refcodec.sendableClient _); [done |].
    destruct (from_option _ _ _); [done |]. intros [= <-].
    exists d. by rewrite unmarshal_marshal.
Qed.

Arguments fmt.Sprintf : simpl never.
Arguments makeKey : simpl never.
Arguments stored : simpl never.
Arguments faulty : simpl never.
Arguments round : simpl never.
Arguments after : simpl never.
Arguments Do : simpl never.

(** One round-trip of a run held in hypothesis [H]: either the scheduled
    fault, or the command's effect. *)
Ltac round_trip H :=
  rewrite run_Do in H;
  match type of H with
  | context [round ?cmd ?w] =>
      let E := fresh "Hup" in
      destruct (faulty w) eqn:E;
      [ rewrite (round_faulty cmd w E) in H; simpl in H; try discriminate H
      | first [ rewrite (round_GET _ w E) in H
              | rewrite (round_SET _ _ w E) in H
              | rewrite (round_DEL _ w E) in H
              | rewrite (round_SETEX _ _ _ w E) in H ];
        simpl in H ]
  end.

(** ** The client registry *)

Section ClientRegistry.

Context {codec : gob.Codec}.

Lemma CreateClient_inv (s : Storage) (c : osin.Client) (w w1 : World) :
  CreateClient s c w = (Ret None, w1) ->
  exists payload,
    gob.EncodeClient c = inr payload /\
    faulty w = false /\
    w1 = after w (<[makeKey s "client" (osin.GetId c)
                     := redis.Entry payload None]> (db w)).
Proof.
  unfold CreateClient, encode, gob.Encode, gob.encodable_Client.
  destruct (gob.EncodeClient c) as [e|payload]; simpl; [done |].
  intros H. round_trip H. injection H as <-. by exists payload.
Qed.

Lemma UpdateClient_inv (s : Storage) (c : osin.Client) (w w1 : World) :
  UpdateClient s c w = (Ret None, w1) -> CreateClient s c w = (Ret None, w1).
Proof.
  unfold UpdateClient. rewrite run_bind.
  destruct (CreateClient s c w) as [[err|msg] w'] eqn:E; [|done].
  rewrite run_ret. intros [= H <-]. apply Wrap_is_None in H. by subst.
Qed.

(** What [GetClient] answers when its round-trip is not hit by a fault. *)
Lemma GetClient_run (s : Storage) (id : string) (w : World) :
  faulty w = false ->
  GetClient s id w =
  (Ret match stored w (makeKey s "client" id) with
       | Some b =>
           let '(c, err) := decode b zeroDefaultClient in
           (Some (osin.PtrDefaultClient c),
            errors.Wrap err "failed to decode client gob")
       | None =>
           (None, Some (errors.ErrWrap errors.ErrNil "failed to get client gob"))
       end,
   after w (db w)).
Proof.
  intros Hup. unfold GetClient. rewrite run_Do, round_GET by done. simpl.
  destruct (stored w _) as [b|]; simpl; [|done].
  by destruct (decode b zeroDefaultClient) as [c err].
Qed.

Lemma GetClient_registry (s : Storage) (id : string) (w : World) (cl : osin.Client) :
  faulty w = false ->
  registry s w id = Some cl ->
  GetClient s id w = (Ret (Some cl, None), after w (db w)).
Proof.
  intros Hup. rewrite GetClient_run by done. unfold registry.
  destruct (stored w _) as [b|]; [|done].
  destruct (decode b zeroDefaultClient) as [c [e|]]; [done |].
  by intros [= <-].
Qed.

(** X10. Whatever was stored under the key, a client [GetClient] returns is
    a [*DefaultClient]. *)
Lemma GetClient_default (s : Storage) (id : string) (w w' : World)
  (c : osin.Client) (err : option error) :
  GetClient s id w = (Ret (Some c, err), w') ->
  exists d, c = osin.PtrDefaultClient d.
Proof.
  unfold GetClient. rewrite run_Do.
  destruct (redis.Bytes _) as [b [e|]]; simpl; [done |].
  destruct (decode b zeroDefaultClient) as [d e]. intros [= <- _ _]. by exists d.
Qed.

Context {laws : gob.Laws codec}.

Lemma decode_encode_client (c : osin.DefaultClient) (payload : string) :
  gob.EncodeClient (osin.PtrDefaultClient c) = inr payload ->
  decode payload zeroDefaultClient = (c, None).
Proof.
  intros H. unfold decode, gob.Decode, gob.decodable_DefaultClient.
  by rewrite (gob.decode_encode_client _ _ H).
Qed.

(** A default client that was created is what the registry holds. *)
Lemma registry_CreateClient (s : Storage) (c : osin.DefaultClient) (w w1 w2 : World) :
  CreateClient s (osin.PtrDefaultClient c) w = (Ret None, w1) ->
  db w2 = db w1 ->
  registry s w2 (osin.Id c) = Some (osin.PtrDefaultClient c).
Proof.
  intros (payload & He & Hup & ->)%CreateClient_inv Hdb.
  unfold registry, stored. rewrite Hdb, db_after. simpl osin.GetId.
  rewrite get_insert. by rewrite (decode_encode_client _ _ He).
Qed.

End ClientRegistry.

Section ClientRoundTrip.

Context {codec : gob.Codec} {laws : gob.Laws codec}.

(** C4 (amended). For any default client C, after [CreateClient] of C
    succeeded, [GetClient] of C's id, its round-trip reaching the engine,
    returns a client equal to C field for field. *)
Theorem createClient_getClient_roundtrip (s : Storage) (c : osin.DefaultClient)
  (w w1 : World) :
  CreateClient s (osin.PtrDefaultClient c) w = (Ret None, w1) ->
  faulty w1 = false ->
  GetClient s (osin.Id c) w1
  = (Ret (Some (osin.PtrDefaultClient c), None), after w1 (db w1)).
Proof.
  intros Hcreate Hup. apply GetClient_registry; [done |].
  by apply (registry_CreateClient s c w w1).
Qed.

End ClientRoundTrip.

Lemma createClient_getClient_roundtrip_witness :
  CreateClient (codec := refcodec.codec) sample.store
    (osin.PtrDefaultClient sample.c1) sample.world
  = (Ret None, sample.registered) /\
  faulty sample.registered = false /\
  GetClient (codec := refcodec.codec) sample.store (osin.Id sample.c1)
    sample.registered
  = (Ret (Some (osin.PtrDefaultClient sample.c1), None),
     after sample.registered (db sample.registered)).
Proof.
  assert (CreateClient (codec := refcodec.codec) sample.store
            (osin.PtrDefaultClient sample.c1) sample.world
          = (Ret None, sample.registered)) as Hcreate
      by (apply run_split; vm_compute; reflexivity).
  assert (faulty sample.registered = false) as Hup by (vm_compute; reflexivity).
  split; [exact Hcreate |]. split; [exact Hup |].
  exact (createClient_getClient_roundtrip (laws := refcodec_laws)
           sample.store sample.c1 sample.world sample.registered Hcreate Hup).
Defined.

(** C4 as stated does not hold: for a client of another implementation
    [CreateClient] succeeds, and [GetClient] then hands out a
    [*DefaultClient] from which the field [Tenant] is gone. *)
Lemma createClient_getClient_custom_counterexample :
  (CreateClient (codec := refcodec.codec)
     sample.store sample.tenant sample.world).1 = Ret None /\
  (GetClient (codec := refcodec.codec) sample.store (osin.GetId sample.tenant)
     (CreateClient (codec := refcodec.codec)
        sample.store sample.tenant sample.world).2).1
  = Ret (Some (osin.PtrDefaultClient sample.c1), None) /\
  osin.PtrDefaultClient sample.c1 ≠ sample.tenant.
Proof.
  split; [|split]; [vm_compute; reflexivity | vm_compute; reflexivity | discriminate].
Qed.

(** ** Deleting *)

Section Deleting.

Context {codec : gob.Codec}.

Lemma DeleteClient_run (s : Storage) (c : osin.Client) (w : World) :
  faulty w = false ->
  DeleteClient s c w
  = (Ret None, after w (delete (makeKey s "client" (osin.GetId c)) (db w))).
Proof. intros Hup. unfold DeleteClient. by rewrite run_Do, round_DEL. Qed.

Lemma RemoveAuthorize_run (s : Storage) (code : string) (w : World) :
  faulty w = false ->
  RemoveAuthorize s code w
  = (Ret None, after w (delete (makeKey s "auth" code) (db w))).
Proof. intros Hup. unfold RemoveAuthorize. by rewrite run_Do, round_DEL. Qed.

(** A delete fails only when its round-trip does. *)
Lemma DeleteClient_error (s : Storage) (c : osin.Client) (w w' : World)
  (err : option error) :
  DeleteClient s c w = (Ret err, w') -> err = None \/ BackendError err.
Proof.
  unfold DeleteClient. rewrite run_Do. destruct (faulty w) eqn:Hup.
  - rewrite round_faulty by done. intros [= <- _]. right.
    by eexists _, _.
  - rewrite round_DEL by done. intros [= <- _]. by left.
Qed.

Lemma RemoveAuthorize_error (s : Storage) (code : string) (w w' : World)
  (err : option error) :
  RemoveAuthorize s code w = (Ret err, w') -> err = None \/ BackendError err.
Proof.
  unfold RemoveAuthorize. rewrite run_Do. destruct (faulty w) eqn:Hup.
  - rewrite round_faulty by done. intros [= <- _]. right.
    by eexists _, _.
  - rewrite round_DEL by done. intros [= <- _]. by left.
Qed.

(** C9. [DeleteClient] and [RemoveAuthorize] are idempotent: against a
    reachable engine, calling either twice on the same identifier succeeds
    both times; the first call leaves the key absent, so the second one
    deletes an absent key, and that is a success.  In any world, the error
    of a delete is never NotFound. *)
Theorem delete_idempotent (s : Storage) (c : osin.Client) (code : string)
  (w : World) :
  healthy w ->
  (exists w1 w2,
      DeleteClient s c w = (Ret None, w1) /\
      stored w1 (makeKey s "client" (osin.GetId c)) = None /\
      DeleteClient s c w1 = (Ret None, w2)) /\
  (exists w1 w2,
      RemoveAuthorize s code w = (Ret None, w1) /\
      stored w1 (makeKey s "auth" code) = None /\
      RemoveAuthorize s code w1 = (Ret None, w2)) /\
  (forall w0 w' err, DeleteClient s c w0 = (Ret err, w') -> ~ NotFound err) /\
  (forall w0 w' err, RemoveAuthorize s code w0 = (Ret err, w') -> ~ NotFound err).
Proof.
  intros Hw. repeat split.
  - eexists _, _. rewrite DeleteClient_run by by apply healthy_faulty.
    split; [done |]. split; [apply get_delete |].
    apply DeleteClient_run, healthy_faulty. by apply healthy_after.
  - eexists _, _. rewrite RemoveAuthorize_run by by apply healthy_faulty.
    split; [done |]. split; [apply get_delete |].
    apply RemoveAuthorize_run, healthy_faulty. by apply healthy_after.
  - intros w0 w' err [->|H]%DeleteClient_error.
    + by intros (e & ? & _).
    + by apply BackendError_not_NotFound.
  - intros w0 w' err [->|H]%RemoveAuthorize_error.
    + by intros (e & ? & _).
    + by apply BackendError_not_NotFound.
Qed.

End Deleting.

(** ** Authorization codes *)

Section Authorize.

Context {codec : gob.Codec}.

(** C8. If encoding the AuthorizeData record fails, [SaveAuthorize]
    returns the encode error, wrapped, and the world is left as it was: no
    round-trip is made, so nothing is written. *)
Theorem saveAuthorize_encode_failure (s : Storage) (data : AuthorizeData.t)
  (e : error) (w : World) :
  gob.EncodeAuthorizeData data = inl e ->
  SaveAuthorize s data w
  = (Ret (Some (errors.ErrWrap (errors.ErrWrap e "unable to encode")
                  "failed to encode data")), w).
Proof.
  intros He. unfold SaveAuthorize, encode, gob.Encode, gob.encodable_AuthorizeData.
  by rewrite He.
Qed.

Lemma SaveAuthorize_inv (s : Storage) (data : AuthorizeData.t) (w w1 : World) :
  SaveAuthorize s data w = (Ret None, w1) ->
  exists payload,
    gob.EncodeAuthorizeData data = inr payload /\
    faulty w = false /\
    0 < AuthorizeData.ExpiresIn data /\
    w1 = after w (<[makeKey s "auth" (AuthorizeData.Code data)
                     := redis.Entry payload
                          (Some (clock w + AuthorizeData.ExpiresIn data))]> (db w)).
Proof.
  unfold SaveAuthorize, encode, gob.Encode, gob.encodable_AuthorizeData.
  destruct (gob.EncodeAuthorizeData data) as [e|payload]; simpl; [done |].
  intros H. round_trip H.
  destruct (Z.leb_spec (AuthorizeData.ExpiresIn data) 0); simpl in H; [done |].
  injection H as <-. by exists payload.
Qed.

(** What [LoadAuthorize] answers when its round-trip is not hit by a
    fault. *)
Lemma LoadAuthorize_run (s : Storage) (code : string) (w : World) :
  faulty w = false ->
  LoadAuthorize s code w =
  (Ret match stored w (makeKey s "auth" code) with
       | Some b =>
           let '(auth, err) := decode b AuthorizeData.zero in
           (Some auth, errors.Wrap err "failed to decode auth")
       | None => (None, Some (errors.ErrNew "token is expired"))
       end,
   after w (db w)).
Proof.
  intros Hup. unfold LoadAuthorize. rewrite run_Do, round_GET by done. simpl.
  destruct (stored w _) as [b|]; simpl; [|done].
  by destruct (decode b AuthorizeData.zero) as [auth err].
Qed.

(** C7. For every code whose key is absent from the engine,
    [LoadAuthorize] returns no record and an error: Expired, or the
    backend error of a failed round-trip.  It never returns a record, nil
    or zero, as a success. *)
Theorem loadAuthorize_absent (s : Storage) (code : string) (w : World) :
  stored w (makeKey s "auth" code) = None ->
  exists e,
    LoadAuthorize s code w = (Ret (None, Some e), after w (db w)) /\
    (Expired (Some e) \/ BackendError (Some e)) /\
    (faulty w = false -> e = errors.ErrNew "token is expired").
Proof.
  intros Habsent. destruct (faulty w) eqn:Hup.
  - unfold LoadAuthorize. rewrite run_Do, round_faulty by done. simpl.
    eexists. split; [done |]. split; [|done]. right. by eexists _, _.
  - rewrite LoadAuthorize_run, Habsent by done.
    eexists. split; [done |]. split; [|done]. left. by eexists.
Qed.

(** Once the expiry of a saved code has elapsed, its key is absent. *)
Lemma saveAuthorize_expires (s : Storage) (data : AuthorizeData.t)
  (w w1 : World) (elapsed : Z) :
  SaveAuthorize s data w = (Ret None, w1) ->
  AuthorizeData.ExpiresIn data <= elapsed ->
  stored (tick elapsed w1) (makeKey s "auth" (AuthorizeData.Code data)) = None.
Proof.
  intros (payload & _ & _ & Hpos & ->)%SaveAuthorize_inv Hle.
  unfold stored, tick, after, redis.get. simpl. rewrite lookup_insert_eq.
  unfold redis.live. simpl.
  destruct (Z.ltb_spec (clock w + Z.max 0 elapsed)
              (clock w + AuthorizeData.ExpiresIn data)); [lia | done].
Qed.

Context {laws : gob.Laws codec}.

(** X7. Within its expiry, a saved code whose client is a default client
    loads back as it was saved. *)
Lemma saveAuthorize_loadAuthorize (s : Storage) (data : AuthorizeData.t)
  (w w1 : World) (elapsed : Z) :
  gob.plainAuthorize data ->
  SaveAuthorize s data w = (Ret None, w1) ->
  elapsed < AuthorizeData.ExpiresIn data ->
  faulty (tick elapsed w1) = false ->
  (LoadAuthorize s (AuthorizeData.Code data) (tick elapsed w1)).1
  = Ret (Some data, None).
Proof.
  intros Hplain (payload & He & _ & Hpos & ->)%SaveAuthorize_inv Hlt Hup.
  rewrite LoadAuthorize_run by done. simpl.
  replace (stored _ _) with (Some payload).
  - unfold decode, gob.Decode, gob.decodable_AuthorizeData.
    by rewrite (gob.decode_encode_authorize _ _ Hplain He).
  - unfold stored, tick, after, redis.get. simpl. rewrite lookup_insert_eq.
    unfold redis.live. simpl.
    destruct (Z.ltb_spec (clock w + Z.max 0 elapsed)
                (clock w + AuthorizeData.ExpiresIn data)); [done | lia].
Qed.

End Authorize.

Lemma saveAuthorize_encode_failure_witness :
  let e := errors.ErrGob "gob: type not registered for interface: *main.TenantClient" in
  gob.EncodeAuthorizeData (Codec := refcodec.codec) sample.foreign = inl e /\
  SaveAuthorize (codec := refcodec.codec) sample.store sample.foreign sample.world
  = (Ret (Some (errors.ErrWrap (errors.ErrWrap e "unable to encode")
                  "failed to encode data")), sample.world).
Proof.
  cbv zeta. split; [reflexivity |].
  apply (saveAuthorize_encode_failure (codec := refcodec.codec)). reflexivity.
Defined.

Lemma loadAuthorize_absent_witness :
  stored sample.world (makeKey sample.store "auth" "code1") = None /\
  exists e,
    LoadAuthorize (codec := refcodec.codec) sample.store "code1" sample.world
    = (Ret (None, Some e), after sample.world (db sample.world)) /\
    (Expired (Some e) \/ BackendError (Some e)) /\
    (faulty sample.world = false -> e = errors.ErrNew "token is expired").
Proof.
  split; [reflexivity |].
  apply (loadAuthorize_absent (codec := refcodec.codec)). reflexivity.
Defined.

Lemma delete_idempotent_witness :
  healthy sample.world /\
  (exists w1 w2,
      DeleteClient sample.store (osin.PtrDefaultClient sample.c1) sample.world
      = (Ret None, w1) /\
      stored w1 (makeKey sample.store "client" "c1") = None /\
      DeleteClient sample.store (osin.PtrDefaultClient sample.c1) w1 = (Ret None, w2)).
Proof.
  split; [reflexivity |].
  apply (delete_idempotent sample.store (osin.PtrDefaultClient sample.c1) "code1").
  reflexivity.
Defined.

(** ** Access and refresh tokens *)

Lemma access_ne_access_token (s : Storage) (id tok : string) :
  makeKey s "access" id ≠ makeKey s "access_token" tok.
Proof. by apply (makeKey_family s namespace.access namespace.access_token). Qed.

Lemma access_ne_refresh_token (s : Storage) (id tok : string) :
  makeKey s "access" id ≠ makeKey s "refresh_token" tok.
Proof. by apply (makeKey_family s namespace.access namespace.refresh_token). Qed.

Lemma access_token_ne_refresh_token (s : Storage) (tok tok' : string) :
  makeKey s "access_token" tok ≠ makeKey s "refresh_token" tok'.
Proof. by apply (makeKey_family s namespace.access_token namespace.refresh_token). Qed.

Lemma client_ne_access (s : Storage) (id id' : string) :
  makeKey s "client" id ≠ makeKey s "access" id'.
Proof. by apply (makeKey_family s namespace.client namespace.access). Qed.

Lemma client_ne_access_token (s : Storage) (id tok : string) :
  makeKey s "client" id ≠ makeKey s "access_token" tok.
Proof. by apply (makeKey_family s namespace.client namespace.access_token). Qed.

Lemma client_ne_refresh_token (s : Storage) (id tok : string) :
  makeKey s "client" id ≠ makeKey s "refresh_token" tok.
Proof. by apply (makeKey_family s namespace.client namespace.refresh_token). Qed.

Create HintDb keys.
#[local] Hint Resolve access_ne_access_token access_ne_refresh_token
  access_token_ne_refresh_token client_ne_access client_ne_access_token
  client_ne_refresh_token : keys.

(** The next round-trip of a reachable engine is not a fault. *)
Ltac reachable :=
  first [ assumption
        | apply healthy_faulty; repeat apply healthy_after; assumption ].

(** Two keys of different families differ, whichever way round. *)
Ltac distinct_keys :=
  unfold accessKey, accessTokenKey, refreshTokenKey;
  solve [ auto with keys | apply not_eq_sym; auto with keys ].

Section Access.

Context {codec : gob.Codec}.

(** A successful [SaveAccess] made three writes, in this order, under the
    identifier it drew. *)
Lemma SaveAccess_inv (s : Storage) (data : AccessData.t) (w w1 : World) :
  SaveAccess s data w = (Ret None, w1) ->
  exists payload,
    gob.EncodeAccessData data = inr payload /\
    db w1 =
      <[refreshTokenKey s data := redis.Entry (entropy w (draws w)) None]>
        (<[accessTokenKey s data := redis.Entry (entropy w (draws w)) None]>
           (<[accessKey s (entropy w (draws w)) := redis.Entry payload None]>
              (db w))) /\
    clock w1 = clock w.
Proof.
  unfold SaveAccess, encode, gob.Encode, gob.encodable_AccessData.
  destruct (gob.EncodeAccessData data) as [e|payload]; simpl; [done |].
  intros H. rewrite run_bind in H. simpl in H.
  round_trip H. round_trip H. round_trip H.
  injection H as <-. by exists payload.
Qed.

Lemma SaveAccess_linked (s : Storage) (data : AccessData.t) (w w1 : World) :
  SaveAccess s data w = (Ret None, w1) ->
  exists payload,
    gob.EncodeAccessData data = inr payload /\
    linked s w1 data (entropy w (draws w)) payload.
Proof.
  intros (payload & He & Hdb & Hclock)%SaveAccess_inv.
  exists payload. split; [done |]. unfold linked, stored. rewrite Hdb.
  repeat split.
  - rewrite get_insert_ne by distinct_keys.
    rewrite get_insert_ne by distinct_keys. apply get_insert.
  - rewrite get_insert_ne by distinct_keys. apply get_insert.
  - apply get_insert.
Qed.

(** Against a reachable engine, a record that encodes is saved. *)
Lemma SaveAccess_run (s : Storage) (data : AccessData.t) (w : World)
  (payload : string) :
  gob.EncodeAccessData data = inr payload ->
  healthy w ->
  exists w1, SaveAccess s data w = (Ret None, w1) /\ healthy w1.
Proof.
  intros He Hw. unfold SaveAccess, encode, gob.Encode, gob.encodable_AccessData.
  rewrite He. simpl. rewrite run_bind. simpl.
  set (w' := mkWorld _ _ _ _ _). assert (healthy w') as Hw' by done.
  rewrite run_Do, round_SET by reachable. simpl.
  rewrite run_Do, round_SET by reachable. simpl.
  rewrite run_Do, round_SET by reachable. simpl.
  eexists. split; [done |]. by do 3 apply healthy_after.
Qed.

(** The raw load: what [loadAccessImpl] found when it returned no error. *)
Lemma loadAccessImpl_inv (s : Storage) (key : string) (w w' : World)
  (oa : option AccessData.t) :
  loadAccessImpl s key w = (Ret (oa, None), w') ->
  exists accessID payload a,
    oa = Some a /\
    stored w key = Some accessID /\
    stored w (accessKey s accessID) = Some payload /\
    decode payload AccessData.zero = (a, None) /\
    w' = after (after w (db w)) (db w).
Proof.
  unfold loadAccessImpl. intros H. round_trip H.
  destruct (stored w key) as [accessID|] eqn:Hkey; simpl in H; [|done].
  round_trip H. rewrite stored_after_same in H.
  destruct (stored w (makeKey s "access" accessID)) as [payload|] eqn:Hid;
    simpl in H; [|done].
  destruct (decode payload AccessData.zero) as [a err] eqn:Hdec.
  rewrite run_ret in H. injection H as <- Herr <-.
  apply Wrap_is_None in Herr as ->. by exists accessID, payload, a.
Qed.

Lemma loadAccessImpl_run (s : Storage) (key : string) (w : World)
  (accessID payload : string) :
  healthy w ->
  stored w key = Some accessID ->
  stored w (accessKey s accessID) = Some payload ->
  loadAccessImpl s key w =
  (Ret (let '(a, err) := decode payload AccessData.zero in
        (Some a, errors.Wrap err "failed to decode access gob")), w).
Proof.
  intros Hw Hkey Hid. unfold loadAccessImpl.
  rewrite run_Do, round_GET, Hkey by reachable. simpl.
  rewrite after_same by done.
  rewrite run_Do, round_GET by reachable. fold (accessKey s accessID).
  rewrite Hid. simpl. rewrite after_same by done.
  by destruct (decode payload AccessData.zero).
Qed.

(** A token whose pointer is absent: the raw load fails at its first GET
    and touches nothing. *)
Lemma loadAccessImpl_absent (s : Storage) (key : string) (w : World) :
  stored w key = None ->
  exists e,
    loadAccessImpl s key w = (Ret (None, Some e), after w (db w)) /\
    (faulty w = false -> NotFound (Some e)).
Proof.
  intros Habsent. unfold loadAccessImpl. rewrite run_Do.
  destruct (faulty w) eqn:Hup.
  - rewrite round_faulty by done. simpl. eexists. split; done.
  - rewrite round_GET, Habsent by done. simpl. eexists. split; [done |].
    intros _. by eexists.
Qed.

Lemma loadAndRefreshAccess_absent (s : Storage) (key : string) (w : World) :
  stored w key = None ->
  exists e,
    loadAndRefreshAccess s key w = (Ret (None, Some e), after w (db w)) /\
    (faulty w = false -> NotFound (Some e)).
Proof.
  intros (e & Hload & Hnf)%(loadAccessImpl_absent s).
  unfold loadAndRefreshAccess. rewrite run_bind, Hload. simpl.
  eexists. split; [done |]. intros Hup.
  apply (NotFound_Wrap (Some e)). auto.
Qed.

Lemma removeAccessImpl_absent (s : Storage) (key : string) (w : World) :
  stored w key = None ->
  exists e,
    removeAccessImpl s key w = (Ret (Some e), after w (db w)) /\
    (faulty w = false -> NotFound (Some e)).
Proof.
  intros Habsent. unfold removeAccessImpl. rewrite run_Do.
  destruct (faulty w) eqn:Hup.
  - rewrite round_faulty by done. simpl. eexists. split; done.
  - rewrite round_GET, Habsent by done. simpl. eexists. split; [done |].
    intros _. by eexists.
Qed.

(** A successful removal resolved the token, loaded the record and deleted
    the record and the two pointers the record names. *)
Lemma removeAccessImpl_inv (s : Storage) (key : string) (w w2 : World) :
  removeAccessImpl s key w = (Ret None, w2) ->
  exists accessID payload a,
    stored w key = Some accessID /\
    stored w (accessKey s accessID) = Some payload /\
    decode payload AccessData.zero = (a, None) /\
    db w2 =
      delete (refreshTokenKey s a)
        (delete (accessTokenKey s a) (delete (accessKey s accessID) (db w))).
Proof.
  unfold removeAccessImpl. intros H. round_trip H.
  destruct (stored w key) as [accessID|] eqn:Hkey; simpl in H; [|done].
  rewrite run_bind in H.
  destruct (loadAccessImpl s key (after w (db w)))
    as [[[oa [err|]]|msg] w'] eqn:Hload; simpl in H; [done | | done].
  apply loadAccessImpl_inv in Hload
    as (accessID' & payload & a & -> & Hkey' & Hid & Hdec & ->).
  rewrite stored_after_same in Hkey', Hid.
  assert (accessID' = accessID) as -> by congruence.
  round_trip H. round_trip H. round_trip H.
  injection H as <-. by exists accessID, payload, a.
Qed.

End Access.

Section AccessProperties.

Context {codec : gob.Codec}.

(** C1 (amended). For every AccessData record, whether its refresh token
    is empty or not, a successful [SaveAccess] writes three entries and
    nothing else: the record under [access:<accessID>], the pointer
    [access_token:<accessToken>] and the pointer
    [refresh_token:<refreshToken>], both to [accessID]. *)
Theorem saveAccess_writes_three (s : Storage) (data : AccessData.t)
  (w w1 : World) :
  SaveAccess s data w = (Ret None, w1) ->
  let accessID := entropy w (draws w) in
  exists payload,
    gob.EncodeAccessData data = inr payload /\
    db w1 =
      <[makeKey s "refresh_token" (AccessData.RefreshToken data)
          := redis.Entry accessID None]>
        (<[makeKey s "access_token" (AccessData.AccessToken data)
             := redis.Entry accessID None]>
           (<[makeKey s "access" accessID := redis.Entry payload None]> (db w))) /\
    stored w1 (makeKey s "access" accessID) = Some payload /\
    stored w1 (makeKey s "access_token" (AccessData.AccessToken data))
    = Some accessID /\
    stored w1 (makeKey s "refresh_token" (AccessData.RefreshToken data))
    = Some accessID.
Proof.
  intros Hsave accessID.
  destruct (SaveAccess_inv _ _ _ _ Hsave) as (payload & He & Hdb & _).
  destruct (SaveAccess_linked _ _ _ _ Hsave) as (payload' & He' & Hlinked).
  assert (payload' = payload) as -> by congruence.
  exists payload. split; [done |]. split; [done |]. exact Hlinked.
Qed.

(** C10. Removing by token is not idempotent: for every token whose
    pointer key is absent, [RemoveAccess] and [RemoveRefresh] return an
    error, NotFound unless the round-trip itself failed, and leave the key
    space as it was. *)
Theorem remove_absent_token (s : Storage) (token : string) (w : World) :
  (stored w (makeKey s "access_token" token) = None ->
   exists e w',
     RemoveAccess s token w = (Ret (Some e), w') /\
     db w' = db w /\
     (faulty w = false -> NotFound (Some e))) /\
  (stored w (makeKey s "refresh_token" token) = None ->
   exists e w',
     RemoveRefresh s token w = (Ret (Some e), w') /\
     db w' = db w /\
     (faulty w = false -> NotFound (Some e))).
Proof.
  split; intros (e & Hrm & Hnf)%(removeAccessImpl_absent s);
    exists e, (after w (db w)); by repeat split.
Qed.

Context {laws : gob.Laws codec}.

Lemma decode_encode_access (data : AccessData.t) (payload : string) :
  gob.EncodeAccessData data = inr payload ->
  exists a,
    decode payload AccessData.zero = (a, None) /\
    AccessData.AccessToken a = AccessData.AccessToken data /\
    AccessData.RefreshToken a = AccessData.RefreshToken data /\
    (gob.plainAccess data -> a = data).
Proof.
  intros (a & Hdec & Hrest)%gob.decode_encode_access. exists a.
  split; [|done]. unfold decode, gob.Decode, gob.decodable_AccessData.
  by rewrite Hdec.
Qed.

(** Removing a saved record through either of its tokens deletes the
    record and both pointers. *)
Lemma remove_saved (s : Storage) (data : AccessData.t) (key : string)
  (w w1 w2 : World) :
  SaveAccess s data w = (Ret None, w1) ->
  key = accessTokenKey s data \/ key = refreshTokenKey s data ->
  removeAccessImpl s key w1 = (Ret None, w2) ->
  db w2 =
    delete (refreshTokenKey s data)
      (delete (accessTokenKey s data)
         (delete (accessKey s (entropy w (draws w))) (db w1))).
Proof.
  intros (payload & He & Hid & Hat & Hrt)%SaveAccess_linked Hkey
         (accessID & payload' & a & Hptr & Hblob & Hdec & ->)%removeAccessImpl_inv.
  assert (accessID = entropy w (draws w)) as ->
      by (destruct Hkey as [-> | ->]; congruence).
  assert (payload' = payload) as -> by congruence.
  destruct (decode_encode_access _ _ He) as (a' & Hdec' & Hat' & Hrt' & _).
  assert (a' = a) as -> by congruence.
  unfold refreshTokenKey, accessTokenKey. by rewrite Hat', Hrt'.
Qed.

(** Once the three entries of a record are deleted, both loads fail. *)
Lemma loads_fail_after_delete (s : Storage) (data : AccessData.t)
  (accessID : string) (d : gmap string redis.entry) (w3 : World) :
  db w3 =
    delete (refreshTokenKey s data)
      (delete (accessTokenKey s data) (delete (accessKey s accessID) d)) ->
  (exists e w4,
      LoadAccess s (AccessData.AccessToken data) w3 = (Ret (None, Some e), w4) /\
      (faulty w3 = false -> NotFound (Some e))) /\
  (exists e w4,
      LoadRefresh s (AccessData.RefreshToken data) w3 = (Ret (None, Some e), w4) /\
      (faulty w3 = false -> NotFound (Some e))).
Proof.
  intros Hdb. split.
  - destruct (loadAndRefreshAccess_absent s (accessTokenKey s data) w3)
      as (e & Hload & Hnf); [|by exists e, (after w3 (db w3))].
    unfold stored. rewrite Hdb. apply get_delete_None, get_delete.
  - destruct (loadAndRefreshAccess_absent s (refreshTokenKey s data) w3)
      as (e & Hload & Hnf); [|by exists e, (after w3 (db w3))].
    unfold stored. rewrite Hdb. apply get_delete.
Qed.

(** C2. After a successful [SaveAccess] of record A followed by a
    successful [RemoveAccess] of A's access token, the record under its
    accessID, the access-token pointer and the refresh-token pointer are
    all gone; from then on [LoadAccess] of A's access token and
    [LoadRefresh] of A's refresh token fail, with NotFound whenever their
    round-trip reaches the engine. *)
Theorem cascade_delete (s : Storage) (data : AccessData.t) (w w1 w2 : World) :
  SaveAccess s data w = (Ret None, w1) ->
  RemoveAccess s (AccessData.AccessToken data) w1 = (Ret None, w2) ->
  stored w2 (makeKey s "access" (entropy w (draws w))) = None /\
  stored w2 (makeKey s "access_token" (AccessData.AccessToken data)) = None /\
  stored w2 (makeKey s "refresh_token" (AccessData.RefreshToken data)) = None /\
  forall w3, db w3 = db w2 ->
    (exists e w4,
        LoadAccess s (AccessData.AccessToken data) w3 = (Ret (None, Some e), w4) /\
        (faulty w3 = false -> NotFound (Some e))) /\
    (exists e w4,
        LoadRefresh s (AccessData.RefreshToken data) w3 = (Ret (None, Some e), w4) /\
        (faulty w3 = false -> NotFound (Some e))).
Proof.
  intros Hsave Hrm.
  pose proof (remove_saved s data _ w w1 w2 Hsave (or_introl eq_refl) Hrm) as Hdb.
  split; [|split; [|split]].
  - unfold stored. rewrite Hdb. apply get_delete_None, get_delete_None, get_delete.
  - unfold stored. rewrite Hdb. apply get_delete_None, get_delete.
  - unfold stored. rewrite Hdb. apply get_delete.
  - intros w3 Hdb3.
    apply (loads_fail_after_delete s data (entropy w (draws w)) (db w1)).
    by rewrite Hdb3, Hdb.
Qed.

(** X11. The same cascade through the refresh token: after a successful
    [SaveAccess] and a successful [RemoveRefresh] of the record's refresh
    token, both loads fail, with NotFound whenever their round-trip reaches
    the engine. *)
Lemma cascade_delete_refresh (s : Storage) (data : AccessData.t)
  (w w1 w2 w3 : World) :
  SaveAccess s data w = (Ret None, w1) ->
  RemoveRefresh s (AccessData.RefreshToken data) w1 = (Ret None, w2) ->
  db w3 = db w2 ->
  (exists e w4,
      LoadAccess s (AccessData.AccessToken data) w3 = (Ret (None, Some e), w4) /\
      (faulty w3 = false -> NotFound (Some e))) /\
  (exists e w4,
      LoadRefresh s (AccessData.RefreshToken data) w3 = (Ret (None, Some e), w4) /\
      (faulty w3 = false -> NotFound (Some e))).
Proof.
  intros Hsave Hrm Hdb3.
  pose proof (remove_saved s data _ w w1 w2 Hsave (or_intror eq_refl) Hrm) as Hdb.
  apply (loads_fail_after_delete s data (entropy w (draws w)) (db w1)).
  by rewrite Hdb3, Hdb.
Qed.

End AccessProperties.

(** ** Hydration *)

Lemma withoutClients_hydrate (reg : string -> option osin.Client)
  (data : AccessData.t) :
  withoutClients (hydrate reg data) = withoutClients data.
Proof.
  unfold hydrate, withoutClients. destruct data as [c [a|] tok rtok ex sc]; simpl;
    [|done]. by destruct a as [[c'|] code ex' sc' st].
Qed.

Lemma Client_hydrate (reg : string -> option osin.Client) (data : AccessData.t) :
  AccessData.Client (hydrate reg data)
  = c ← AccessData.Client data; reg (osin.GetId c).
Proof.
  unfold hydrate. destruct data as [c [a|] tok rtok ex sc]; simpl; [|done].
  by destruct a as [[c'|] code ex' sc' st].
Qed.

Lemma AuthorizeData_hydrate (reg : string -> option osin.Client)
  (data : AccessData.t) (a : AuthorizeData.t) (c' : osin.Client) :
  AccessData.AuthorizeData data = Some a ->
  AuthorizeData.Client a = Some c' ->
  AccessData.AuthorizeData (hydrate reg data)
  = Some (AuthorizeData.withClient a (reg (osin.GetId c'))).
Proof. unfold hydrate. by intros -> ->. Qed.

Section Loading.

Context {codec : gob.Codec}.

(** Against a reachable engine, [refreshAccessClients] replaces both
    client references by what the registry holds at that moment. *)
Lemma refreshAccessClients_run (s : Storage) (data : AccessData.t) (w : World) :
  healthy w ->
  hydratable (registry s w) data ->
  refreshAccessClients s data w
  = (Ret (Some (hydrate (registry s w) data), None), w).
Proof.
  intros Hw [(c & Hc & cl & Hcl) Hnested].
  unfold refreshAccessClients, hydrate. rewrite Hc. simpl.
  rewrite run_bind, (GetClient_registry s _ w cl), after_same by (done || reachable).
  simpl. rewrite Hcl.
  destruct (AccessData.AuthorizeData data) as [a|] eqn:Ha; [|done].
  destruct (AuthorizeData.Client a) as [c'|] eqn:Hc'; [|done].
  destruct (Hnested a c' eq_refl Hc') as [cl' Hcl'].
  rewrite run_bind, (GetClient_registry s _ w cl'), after_same by (done || reachable).
  simpl. by rewrite Hcl'.
Qed.

Lemma loadAndRefreshAccess_run (s : Storage) (key : string) (w : World)
  (accessID payload : string) (data : AccessData.t) :
  healthy w ->
  stored w key = Some accessID ->
  stored w (accessKey s accessID) = Some payload ->
  decode payload AccessData.zero = (data, None) ->
  hydratable (registry s w) data ->
  loadAndRefreshAccess s key w
  = (Ret (Some (hydrate (registry s w) data), None), w).
Proof.
  intros Hw Hkey Hblob Hdec Hhyd. unfold loadAndRefreshAccess.
  rewrite run_bind, (loadAccessImpl_run s key w accessID payload) by done.
  rewrite Hdec. simpl. by apply refreshAccessClients_run.
Qed.

Context {laws : gob.Laws codec}.

(** A record that is linked in a reachable world loads, through either
    token, as the saved record hydrated from that world's registry. *)
Lemma load_linked (s : Storage) (data : AccessData.t) (w : World)
  (accessID payload : string) :
  gob.plainAccess data ->
  gob.EncodeAccessData data = inr payload ->
  linked s w data accessID payload ->
  healthy w ->
  hydratable (registry s w) data ->
  LoadAccess s (AccessData.AccessToken data) w
  = (Ret (Some (hydrate (registry s w) data), None), w) /\
  LoadRefresh s (AccessData.RefreshToken data) w
  = (Ret (Some (hydrate (registry s w) data), None), w).
Proof.
  intros Hplain He (Hblob & Hat & Hrt) Hw Hhyd.
  destruct (decode_encode_access _ _ He) as (a & Hdec & _ & _ & Heq).
  rewrite (Heq Hplain) in Hdec.
  split.
  - exact (loadAndRefreshAccess_run s (accessTokenKey s data) w accessID payload
             data Hw Hat Hblob Hdec Hhyd).
  - exact (loadAndRefreshAccess_run s (refreshTokenKey s data) w accessID payload
             data Hw Hrt Hblob Hdec Hhyd).
Qed.

Lemma linked_preserved (s : Storage) (data : AccessData.t) (w w' : World)
  (accessID payload : string) :
  linked s w data accessID payload ->
  preserved (accessKeys s data accessID) w w' ->
  linked s w' data accessID payload.
Proof.
  intros (Hblob & Hat & Hrt) Hkeep. unfold preserved, accessKeys in Hkeep.
  rewrite !Forall_cons in Hkeep. destruct Hkeep as (H1 & H2 & H3 & _).
  unfold linked. by rewrite H1, H2, H3.
Qed.

(** C3. After [SaveAccess] of a record A whose client references are
    default clients, take any two reachable worlds in which A's three
    entries are as the save left them and A's clients are present in the
    registry.  [LoadAccess] of A's access token in the one and
    [LoadRefresh] of A's refresh token in the other both succeed; each
    returns A with its client references replaced by what the registry of
    its own world holds, so the two records are equal in every field
    hydration does not touch. *)
Theorem dual_index_convergence (s : Storage) (data : AccessData.t)
  (w w1 wa wb : World) :
  gob.plainAccess data ->
  SaveAccess s data w = (Ret None, w1) ->
  preserved (accessKeys s data (entropy w (draws w))) w1 wa ->
  preserved (accessKeys s data (entropy w (draws w))) w1 wb ->
  healthy wa -> healthy wb ->
  hydratable (registry s wa) data ->
  hydratable (registry s wb) data ->
  exists ra rb,
    LoadAccess s (AccessData.AccessToken data) wa = (Ret (Some ra, None), wa) /\
    LoadRefresh s (AccessData.RefreshToken data) wb = (Ret (Some rb, None), wb) /\
    ra = hydrate (registry s wa) data /\
    rb = hydrate (registry s wb) data /\
    withoutClients ra = withoutClients rb.
Proof.
  intros Hplain (payload & He & Hlinked)%SaveAccess_linked Hka Hkb Hwa Hwb Hha Hhb.
  destruct (load_linked s data wa _ _ Hplain He
              (linked_preserved _ _ _ _ _ _ Hlinked Hka) Hwa Hha) as [Ha _].
  destruct (load_linked s data wb _ _ Hplain He
              (linked_preserved _ _ _ _ _ _ Hlinked Hkb) Hwb Hhb) as [_ Hb].
  eexists _, _. split; [exact Ha |]. split; [exact Hb |].
  split; [done |]. split; [done |]. by rewrite !withoutClients_hydrate.
Qed.

(** In one and the same world the two loads return the same record. *)
Lemma dual_index_same_world (s : Storage) (data : AccessData.t) (w w1 : World) :
  gob.plainAccess data ->
  SaveAccess s data w = (Ret None, w1) ->
  healthy w1 ->
  hydratable (registry s w1) data ->
  LoadAccess s (AccessData.AccessToken data) w1
  = LoadRefresh s (AccessData.RefreshToken data) w1.
Proof.
  intros Hplain (payload & He & Hlinked)%SaveAccess_linked Hw Hhyd.
  destruct (load_linked s data w1 _ _ Hplain He Hlinked Hw Hhyd) as [-> ->]. done.
Qed.

(** C6. If a client is changed by [UpdateClient] after an access record
    referring to it was saved, a following [LoadAccess] of that record
    returns the updated client, not the copy inside the stored blob: the
    result is the saved record hydrated from the registry as it is at load
    time, and the client of an embedded AuthorizeData, when present, is
    replaced in the same way. *)
Theorem hydration_propagation (s : Storage) (data : AccessData.t)
  (c : osin.Client) (c' : osin.DefaultClient) (w w1 w2 : World) :
  gob.plainAccess data ->
  AccessData.Client data = Some c ->
  osin.GetId c = osin.Id c' ->
  SaveAccess s data w = (Ret None, w1) ->
  UpdateClient s (osin.PtrDefaultClient c') w1 = (Ret None, w2) ->
  healthy w2 ->
  (forall a c2, AccessData.AuthorizeData data = Some a ->
                AuthorizeData.Client a = Some c2 ->
                is_Some (registry s w2 (osin.GetId c2))) ->
  exists r,
    LoadAccess s (AccessData.AccessToken data) w2 = (Ret (Some r, None), w2) /\
    AccessData.Client r = Some (osin.PtrDefaultClient c') /\
    r = hydrate (registry s w2) data /\
    (forall a c2, AccessData.AuthorizeData data = Some a ->
                  AuthorizeData.Client a = Some c2 ->
                  AccessData.AuthorizeData r
                  = Some (AuthorizeData.withClient a
                            (registry s w2 (osin.GetId c2)))).
Proof.
  intros Hplain Hc Hid (payload & He & Hlinked)%SaveAccess_linked
         Hupd%UpdateClient_inv Hw2 Hnested.
  pose proof (registry_CreateClient s c' w1 w2 w2 Hupd eq_refl) as Hreg.
  apply CreateClient_inv in Hupd as (cpayload & _ & _ & Hw2eq).
  assert (linked s w2 data (entropy w (draws w)) payload) as Hlinked2.
  { destruct Hlinked as (Hblob & Hat & Hrt). rewrite Hw2eq.
    unfold linked. rewrite !stored_after.
    rewrite !get_insert_ne by distinct_keys. done. }
  assert (hydratable (registry s w2) data) as Hhyd.
  { split; [|done]. exists c. split; [done |]. rewrite Hid, Hreg. by eexists. }
  destruct (load_linked s data w2 _ _ Hplain He Hlinked2 Hw2 Hhyd) as [Hload _].
  eexists. split; [exact Hload |]. split; [|split; [done |]].
  - by rewrite Client_hydrate, Hc; simpl; rewrite Hid.
  - intros a c2 Ha Hc2. by apply AuthorizeData_hydrate.
Qed.

End Loading.

(** ** The properties on the sample inputs *)

Lemma sample_saved :
  SaveAccess (codec := refcodec.codec) sample.store sample.access1 sample.registered
  = (Ret None, sample.saved).
Proof. apply run_split. vm_compute. reflexivity. Qed.

Lemma sample_updated :
  UpdateClient (codec := refcodec.codec) sample.store
    (osin.PtrDefaultClient sample.c1') sample.saved
  = (Ret None, sample.updated).
Proof. apply run_split. vm_compute. reflexivity. Qed.

Lemma sample_removed :
  RemoveAccess (codec := refcodec.codec) sample.store
    (AccessData.AccessToken sample.access1) sample.saved
  = (Ret None, sample.removed).
Proof. apply run_split. vm_compute. reflexivity. Qed.

(** C1 as stated does not hold: saving a record whose refresh token is empty
    succeeds and leaves three entries, one of them the pointer
    [refresh_token:] that was not there before. *)
Lemma saveAccess_blank_refresh_counterexample :
  AccessData.RefreshToken sample.blank = "" /\
  (SaveAccess (codec := refcodec.codec)
     sample.store sample.blank sample.world).1 = Ret None /\
  stored sample.world "osin:refresh_token:" = None /\
  stored (SaveAccess (codec := refcodec.codec)
            sample.store sample.blank sample.world).2 "osin:refresh_token:"
  = Some "7c9e6679-7425-40de-944b-e07fc1f90ae7" /\
  size (db sample.world) = 0%nat /\
  size (db (SaveAccess (codec := refcodec.codec)
              sample.store sample.blank sample.world).2) = 3%nat.
Proof.
  repeat split; vm_compute; reflexivity.
Qed.

Lemma saveAccess_writes_three_witness :
  SaveAccess (codec := refcodec.codec) sample.store sample.blank sample.world
  = (Ret None, (SaveAccess (codec := refcodec.codec)
                  sample.store sample.blank sample.world).2) /\
  stored (SaveAccess (codec := refcodec.codec)
            sample.store sample.blank sample.world).2
    (makeKey sample.store "refresh_token" (AccessData.RefreshToken sample.blank))
  = Some (entropy sample.world (draws sample.world)).
Proof.
  assert (SaveAccess (codec := refcodec.codec) sample.store sample.blank sample.world
          = (Ret None, (SaveAccess (codec := refcodec.codec)
                          sample.store sample.blank sample.world).2)) as Hsave
      by (apply run_split; vm_compute; reflexivity).
  split; [exact Hsave |].
  destruct (saveAccess_writes_three sample.store sample.blank _ _ Hsave)
    as (payload & _ & _ & _ & _ & Hrt).
  exact Hrt.
Defined.

Lemma cascade_delete_witness :
  stored sample.removed
    (makeKey sample.store "access" (entropy sample.registered (draws sample.registered)))
  = None /\
  stored sample.removed
    (makeKey sample.store "access_token" (AccessData.AccessToken sample.access1))
  = None /\
  stored sample.removed
    (makeKey sample.store "refresh_token" (AccessData.RefreshToken sample.access1))
  = None /\
  exists e w4,
    LoadRefresh (codec := refcodec.codec) sample.store
      (AccessData.RefreshToken sample.access1) sample.removed
    = (Ret (None, Some e), w4) /\
    (faulty sample.removed = false -> NotFound (Some e)).
Proof.
  destruct (cascade_delete (laws := refcodec_laws) sample.store sample.access1
              _ _ _ sample_saved sample_removed) as (Hid & Hat & Hrt & Hloads).
  destruct (Hloads sample.removed eq_refl) as [_ Hrefresh].
  split; [exact Hid |]. split; [exact Hat |]. split; [exact Hrt | exact Hrefresh].
Defined.

Lemma remove_absent_token_witness :
  stored sample.world (makeKey sample.store "access_token" "at1") = None /\
  (exists e w',
      RemoveAccess (codec := refcodec.codec) sample.store "at1" sample.world
      = (Ret (Some e), w') /\
      db w' = db sample.world /\
      (faulty sample.world = false -> NotFound (Some e))) /\
  stored sample.world (makeKey sample.store "refresh_token" "rt1") = None /\
  (exists e w',
      RemoveRefresh (codec := refcodec.codec) sample.store "rt1" sample.world
      = (Ret (Some e), w') /\
      db w' = db sample.world /\
      (faulty sample.world = false -> NotFound (Some e))).
Proof.
  assert (stored sample.world (makeKey sample.store "access_token" "at1") = None)
    as Hat by reflexivity.
  assert (stored sample.world (makeKey sample.store "refresh_token" "rt1") = None)
    as Hrt by reflexivity.
  split; [exact Hat |].
  split; [exact (proj1 (remove_absent_token (codec := refcodec.codec)
                          sample.store "at1" sample.world) Hat) |].
  split; [exact Hrt |].
  exact (proj2 (remove_absent_token (codec := refcodec.codec)
                  sample.store "rt1" sample.world) Hrt).
Defined.

(** Once removed, a second removal through the same token is an error. *)
Lemma remove_twice_sample :
  exists e,
    (RemoveAccess (codec := refcodec.codec) sample.store "at1" sample.removed).1
    = Ret (Some e) /\ NotFound (Some e).
Proof. eexists. split; [vm_compute; reflexivity | by eexists]. Qed.

Lemma sample_hydratable (w : World) :
  registry (codec := refcodec.codec) sample.store w "c1" ≠ None ->
  hydratable (registry (codec := refcodec.codec) sample.store w) sample.access1.
Proof.
  intros Hreg. assert (is_Some (registry (codec := refcodec.codec)
                                  sample.store w "c1")) as Hsome.
  { destruct (registry _ _ _); [by eexists | done]. }
  split.
  - eexists. split; [reflexivity | exact Hsome].
  - intros a c' [= <-] [= <-]. exact Hsome.
Qed.

Lemma sample_registry_saved :
  registry (codec := refcodec.codec) sample.store sample.saved "c1" ≠ None.
Proof. vm_compute. discriminate. Qed.

Lemma sample_registry_updated :
  registry (codec := refcodec.codec) sample.store sample.updated "c1" ≠ None.
Proof. vm_compute. discriminate. Qed.

Lemma sample_preserved :
  preserved
    (accessKeys sample.store sample.access1
       (entropy sample.registered (draws sample.registered)))
    sample.saved sample.updated.
Proof. repeat constructor; vm_compute; reflexivity. Qed.

Lemma sample_healthy_saved : healthy sample.saved.
Proof. vm_compute. reflexivity. Qed.

Lemma sample_healthy_updated : healthy sample.updated.
Proof. vm_compute. reflexivity. Qed.

Lemma dual_index_convergence_witness :
  exists ra rb,
    LoadAccess (codec := refcodec.codec) sample.store
      (AccessData.AccessToken sample.access1) sample.saved
    = (Ret (Some ra, None), sample.saved) /\
    LoadRefresh (codec := refcodec.codec) sample.store
      (AccessData.RefreshToken sample.access1) sample.updated
    = (Ret (Some rb, None), sample.updated) /\
    ra = hydrate (registry (codec := refcodec.codec) sample.store sample.saved)
           sample.access1 /\
    rb = hydrate (registry (codec := refcodec.codec) sample.store sample.updated)
           sample.access1 /\
    withoutClients ra = withoutClients rb.
Proof.
  assert (preserved
            (accessKeys sample.store sample.access1
               (entropy sample.registered (draws sample.registered)))
            sample.saved sample.saved) as Hsame by (repeat constructor).
  exact (dual_index_convergence (laws := refcodec_laws) sample.store sample.access1
           sample.registered sample.saved sample.saved sample.updated
           (conj I I) sample_saved Hsame sample_preserved
           sample_healthy_saved sample_healthy_updated
           (sample_hydratable _ sample_registry_saved)
           (sample_hydratable _ sample_registry_updated)).
Defined.

Lemma hydration_propagation_witness :
  exists r,
    LoadAccess (codec := refcodec.codec) sample.store
      (AccessData.AccessToken sample.access1) sample.updated
    = (Ret (Some r, None), sample.updated) /\
    AccessData.Client r = Some (osin.PtrDefaultClient sample.c1') /\
    r = hydrate (registry (codec := refcodec.codec) sample.store sample.updated)
          sample.access1 /\
    (forall a c2, AccessData.AuthorizeData sample.access1 = Some a ->
                  AuthorizeData.Client a = Some c2 ->
                  AccessData.AuthorizeData r
                  = Some (AuthorizeData.withClient a
                            (registry (codec := refcodec.codec) sample.store
                               sample.updated (osin.GetId c2)))).
Proof.
  assert (forall a c2, AccessData.AuthorizeData sample.access1 = Some a ->
                       AuthorizeData.Client a = Some c2 ->
                       is_Some (registry (codec := refcodec.codec) sample.store
                                  sample.updated (osin.GetId c2))) as Hnested.
  { intros a c2 [= <-] [= <-].
    pose proof sample_registry_updated as H.
    change (osin.GetId (osin.PtrDefaultClient sample.c1)) with "c1".
    destruct (registry _ _ _); [by eexists | done]. }
  exact (hydration_propagation (laws := refcodec_laws) sample.store sample.access1
           (osin.PtrDefaultClient sample.c1) sample.c1'
           sample.registered sample.saved sample.updated
           (conj I I) eq_refl eq_refl sample_saved sample_updated
           sample_healthy_updated Hnested).
Defined.

(** On the sample: after the update, the load returns the rotated secret in
    both client references, although the stored blob still carries the old
    one. *)
Lemma hydration_propagation_sample :
  (LoadAccess (codec := refcodec.codec) sample.store "at1" sample.updated).1
  = Ret (Some (AccessData.mk
                 (Some (osin.PtrDefaultClient sample.c1'))
                 (Some (AuthorizeData.withClient sample.code1
                          (Some (osin.PtrDefaultClient sample.c1'))))
                 "at1" "rt1" 3600 "read"), None).
Proof. vm_compute. reflexivity. Qed.

(** * Further properties of the store *)

(** ** Keys of different stores *)

(** X1. Two stores that share one engine and whose prefixes are different
    and free of the delimiter never build the same key, whatever the
    namespaces and identifiers. *)
Theorem prefix_isolation (s1 s2 : Storage) (n1 n2 id1 id2 : string) :
  occurs ":" (keyPrefix s1) = false ->
  occurs ":" (keyPrefix s2) = false ->
  keyPrefix s1 ≠ keyPrefix s2 ->
  makeKey s1 n1 id1 ≠ makeKey s2 n2 id2.
Proof.
  intros H1 H2 Hne Heq. rewrite !makeKey_eq in Heq.
  by apply tagged_inj in Heq as [Hp _].
Qed.

Lemma prefix_isolation_witness :
  makeKey (New "osin") "client" "c1" ≠ makeKey (New "shop") "client" "c1".
Proof. apply prefix_isolation; [reflexivity | reflexivity | discriminate]. Defined.

(** ** The client registry, further *)

Lemma round_GET_db (k : string) (w : World) : (round (redis.GET k) w).2 = db w.
Proof.
  destruct (faulty w) eqn:E; [by rewrite round_faulty | by rewrite round_GET].
Qed.

Section ClientRegistryFurther.

Context {codec : gob.Codec}.

(** X2. [GetClient] of an id under which nothing is stored returns no client
    and an error: NotFound when the round-trip reaches the engine, the
    backend error otherwise. *)
Theorem getClient_absent (s : Storage) (id : string) (w : World) :
  stored w (makeKey s "client" id) = None ->
  exists e,
    GetClient s id w = (Ret (None, Some e), after w (db w)) /\
    (NotFound (Some e) \/ BackendError (Some e)) /\
    (faulty w = false -> NotFound (Some e)).
Proof.
  intros Habsent. destruct (faulty w) eqn:Hup.
  - unfold GetClient. rewrite run_Do, round_faulty by done. simpl.
    eexists. split; [done |]. split; [|done]. right. by eexists _, _.
  - rewrite GetClient_run, Habsent by done.
    eexists. split; [done |]. split; [left | intros _]; by eexists.
Qed.

(** X3. After a successful [DeleteClient], [GetClient] of the deleted
    client's id finds nothing: it returns no client and NotFound whenever
    its round-trip reaches the engine. *)
Theorem deleteClient_getClient (s : Storage) (c : osin.Client) (w w1 : World) :
  DeleteClient s c w = (Ret None, w1) ->
  exists e,
    GetClient s (osin.GetId c) w1 = (Ret (None, Some e), after w1 (db w1)) /\
    (faulty w1 = false -> NotFound (Some e)).
Proof.
  unfold DeleteClient. intros H. round_trip H. injection H as <-.
  set (w1 := after w (delete (makeKey s "client" (osin.GetId c)) (db w))).
  assert (stored w1 (makeKey s "client" (osin.GetId c)) = None) as Habsent
      by (unfold w1; rewrite stored_after; apply get_delete).
  destruct (faulty w1) eqn:Hup1.
  - unfold GetClient. rewrite run_Do, round_faulty by done. simpl.
    eexists. split; done.
  - rewrite GetClient_run, Habsent by done.
    eexists. split; [done |]. intros _. by eexists.
Qed.

(** X4. When the bytes stored under a client key do not decode,
    [GetClient] returns the decode error together with a non-nil client,
    the receiver as the decoder left it: the client is only meaningful when
    the error is nil. *)
Theorem getClient_decode_failure (s : Storage) (id b : string) (w : World)
  (c : osin.DefaultClient) (e : error) :
  faulty w = false ->
  stored w (makeKey s "client" id) = Some b ->
  gob.DecodeDefaultClient b zeroDefaultClient = (c, Some e) ->
  GetClient s id w
  = (Ret (Some (osin.PtrDefaultClient c),
          Some (errors.ErrWrap (errors.ErrWrap e "unable to decode")
                  "failed to decode client gob")),
     after w (db w)).
Proof.
  intros Hup Hb Hdec. rewrite GetClient_run, Hb by done.
  unfold decode, gob.Decode, gob.decodable_DefaultClient. by rewrite Hdec.
Qed.

(** X5. When encoding fails, [CreateClient] and [SaveAccess] return the
    encode error and leave the world as it was: no round-trip is made and
    no identifier is drawn. *)
Theorem encode_failure_writes_nothing (s : Storage) (w : World) :
  (forall c e,
      gob.EncodeClient c = inl e ->
      CreateClient s c w
      = (Ret (Some (errors.ErrWrap (errors.ErrWrap e "unable to encode")
                      "failed to encode client")), w)) /\
  (forall data e,
      gob.EncodeAccessData data = inl e ->
      SaveAccess s data w
      = (Ret (Some (errors.ErrWrap (errors.ErrWrap e "unable to encode")
                      "failed to encode access")), w)).
Proof.
  split.
  - intros c e He. unfold CreateClient, encode, gob.Encode, gob.encodable_Client.
    by rewrite He.
  - intros data e He.
    unfold SaveAccess, encode, gob.Encode, gob.encodable_AccessData.
    by rewrite He.
Qed.


End ClientRegistryFurther.

(** ** Authorization codes, further *)

Section AuthorizeFurther.

Context {codec : gob.Codec}.

(** X8. Once the expiry of a saved code has elapsed, [LoadAuthorize]
    returns no record and an error: "token is expired" whenever its
    round-trip reaches the engine. *)
Theorem loadAuthorize_after_expiry (s : Storage) (data : AuthorizeData.t)
  (w w1 : World) (elapsed : Z) :
  SaveAuthorize s data w = (Ret None, w1) ->
  AuthorizeData.ExpiresIn data <= elapsed ->
  exists e w2,
    LoadAuthorize s (AuthorizeData.Code data) (tick elapsed w1)
    = (Ret (None, Some e), w2) /\
    (faulty (tick elapsed w1) = false -> Expired (Some e)).
Proof.
  intros Hsave Hle.
  pose proof (saveAuthorize_expires s data w w1 elapsed Hsave Hle) as Habsent.
  destruct (faulty (tick elapsed w1)) eqn:Hup.
  - unfold LoadAuthorize. rewrite run_Do, round_faulty by done. simpl.
    by eexists _, _.
  - rewrite LoadAuthorize_run, Habsent by done.
    eexists _, _. split; [done |]. intros _. by eexists.
Qed.

(** X9. After a successful [RemoveAuthorize] the code is gone, whatever
    its expiry: [LoadAuthorize] returns no record and "token is expired"
    whenever its round-trip reaches the engine. *)
Theorem removeAuthorize_loadAuthorize (s : Storage) (code : string)
  (w1 w2 : World) :
  RemoveAuthorize s code w1 = (Ret None, w2) ->
  stored w2 (makeKey s "auth" code) = None /\
  exists e w3,
    LoadAuthorize s code w2 = (Ret (None, Some e), w3) /\
    (faulty w2 = false -> Expired (Some e)).
Proof.
  intros Hrm. unfold RemoveAuthorize in Hrm. round_trip Hrm.
  injection Hrm as <-.
  assert (stored (after w1 (delete (makeKey s "auth" code) (db w1)))
            (makeKey s "auth" code) = None) as Habsent
      by (rewrite stored_after; apply get_delete).
  split; [exact Habsent |].
  destruct (faulty (after w1 (delete (makeKey s "auth" code) (db w1)))) eqn:Hup2.
  - unfold LoadAuthorize. rewrite run_Do, round_faulty by done. simpl.
    by eexists _, _.
  - rewrite LoadAuthorize_run, Habsent by done.
    eexists _, _. split; [done |]. intros _. by eexists.
Qed.

End AuthorizeFurther.

(** ** What a call leaves alone *)

#[local] Instance sameKeySpace_refl : Reflexive sameKeySpace.
Proof. by intros w. Qed.

#[local] Instance sameKeySpace_trans : Transitive sameKeySpace.
Proof. intros w1 w2 w3 [H1 H1'] [H2 H2']. split; congruence. Qed.

#[local] Instance sameFamilies_refl (s : Storage) (fams : list namespace.t) :
  Reflexive (sameFamilies s fams).
Proof. by intros w n id _. Qed.

#[local] Instance sameFamilies_trans (s : Storage) (fams : list namespace.t) :
  Transitive (sameFamilies s fams).
Proof.
  intros w1 w2 w3 H1 H2 n id Hn. by rewrite (H2 n id Hn), (H1 n id Hn).
Qed.

Lemma sameKeySpace_sameFamilies (s : Storage) (fams : list namespace.t)
  (w w' : World) :
  sameKeySpace w w' -> sameFamilies s fams w w'.
Proof. intros [Hdb Hclock] n id _. unfold stored. by rewrite Hdb, Hclock. Qed.

Lemma keeps_ret {A : Type} (R : World -> World -> Prop) `{!Reflexive R} (a : A) :
  keeps R (mret a).
Proof. intros w o w' [= _ <-]. reflexivity. Qed.

Lemma keeps_panic {A : Type} (R : World -> World -> Prop) `{!Reflexive R}
  (msg : string) :
  keeps R (panic (A := A) msg).
Proof. intros w o w' [= _ <-]. reflexivity. Qed.

Lemma keeps_bind {A B : Type} (R : World -> World -> Prop) `{!Transitive R}
  (m : M A) (k : A -> M B) :
  keeps R m -> (forall a, keeps R (k a)) -> keeps R (m ≫= k).
Proof.
  intros Hm Hk w o w' H. rewrite run_bind in H.
  destruct (m w) as [[a|msg] w1] eqn:E.
  - transitivity w1; [exact (Hm w _ w1 E) | exact (Hk a w1 o w' H)].
  - injection H as _ <-. exact (Hm w _ w1 E).
Qed.

Lemma keeps_weaken {A : Type} (R R' : World -> World -> Prop) (m : M A) :
  (forall w w', R w w' -> R' w w') -> keeps R m -> keeps R' m.
Proof. intros HR Hm w o w' H. exact (HR _ _ (Hm w o w' H)). Qed.

Lemma Do_world (cmd : redis.command) (w : World) :
  Do cmd w = (Ret (round cmd w).1, after w (round cmd w).2).
Proof. unfold Do. by destruct (round cmd w). Qed.

(** A GET leaves the key space alone, whether it fails or not. *)
Lemma keeps_GET (k : string) : keeps sameKeySpace (Do (redis.GET k)).
Proof.
  intros w o w'. rewrite Do_world, round_GET_db. by intros [= _ <-].
Qed.

Lemma keeps_NewV4 : keeps sameKeySpace uuid.NewV4.
Proof. by intros w o w' [= _ <-]. Qed.

(** A command leaves alone every family its key is not in. *)
Lemma keeps_Do (s : Storage) (fams : list namespace.t) (cmd : redis.command)
  (m : namespace.t) (x : string) :
  keyOf cmd = makeKey s (namespace.tag m) x ->
  m ∉ fams ->
  keeps (sameFamilies s fams) (Do cmd).
Proof.
  intros Hkey Hm w o w'. rewrite Do_world. intros [= _ <-] n id Hn.
  assert (keyOf cmd ≠ makeKey s (namespace.tag n) id) as Hne.
  { rewrite Hkey. apply makeKey_family. intros ->. contradiction. }
  rewrite stored_after. destruct (faulty w) eqn:Hup.
  - by rewrite round_faulty.
  - unfold round. rewrite Hup. destruct cmd as [k|k v|k secs v|k]; simpl in *.
    + by destruct (redis.get (db w) (clock w) k).
    + by apply get_insert_ne.
    + destruct (secs <=? 0); simpl; [done | by apply get_insert_ne].
    + by apply get_delete_ne.
Qed.

(** A family is not among the listed ones. *)
Ltac not_in_families :=
  let H := fresh "Hin" in
  intros H;
  repeat (apply elem_of_cons in H as [H|H]; [discriminate H |]);
  by apply elem_of_nil in H.

(** One step of a proof that a call keeps a relation: through a bind, a
    branch, a return, a panic or a read. *)
Ltac keeps_step :=
  first
    [ apply keeps_ret; typeclasses eauto
    | apply keeps_panic; typeclasses eauto
    | apply keeps_GET
    | apply keeps_NewV4
    | apply (keeps_weaken sameKeySpace);
      [ apply sameKeySpace_sameFamilies | first [apply keeps_GET | apply keeps_NewV4] ]
    | apply keeps_bind; [typeclasses eauto | | intros ?]
    | match goal with
      | |- keeps _ (match ?x with _ => _ end) => destruct x
      end ].

Section LeftAlone.

Context {codec : gob.Codec}.

Lemma keeps_GetClient (s : Storage) (id : string) :
  keeps sameKeySpace (GetClient s id).
Proof. unfold GetClient. repeat keeps_step. Qed.

Lemma keeps_loadAccessImpl (s : Storage) (key : string) :
  keeps sameKeySpace (loadAccessImpl s key).
Proof. unfold loadAccessImpl. repeat keeps_step. Qed.

Lemma keeps_refreshAccessClients (s : Storage) (access : AccessData.t) :
  keeps sameKeySpace (refreshAccessClients s access).
Proof.
  unfold refreshAccessClients.
  repeat first [apply keeps_GetClient | keeps_step].
Qed.

Lemma keeps_loadAndRefreshAccess (s : Storage) (key : string) :
  keeps sameKeySpace (loadAndRefreshAccess s key).
Proof.
  unfold loadAndRefreshAccess.
  repeat first [apply keeps_loadAccessImpl | apply keeps_refreshAccessClients
               | keeps_step].
Qed.

(** X12. The four reading calls are read-only: whatever they return, error
    or panic included, [GetClient], [LoadAuthorize], [LoadAccess] and
    [LoadRefresh] leave the key space and the clock as they found them. *)
Theorem loads_are_read_only (s : Storage) (id : string) :
  keeps sameKeySpace (GetClient s id) /\
  keeps sameKeySpace (LoadAuthorize s id) /\
  keeps sameKeySpace (LoadAccess s id) /\
  keeps sameKeySpace (LoadRefresh s id).
Proof.
  split; [apply keeps_GetClient |].
  split; [unfold LoadAuthorize; repeat keeps_step |].
  split.
  - exact (keeps_loadAndRefreshAccess s (makeKey s "access_token" id)).
  - exact (keeps_loadAndRefreshAccess s (makeKey s "refresh_token" id)).
Qed.

(** X13. Each registry writes only to its own record families.  Whatever
    they return, the client calls leave codes and access records alone, the
    code calls leave clients and access records alone, and the access calls
    leave clients and codes alone. *)
Theorem writes_stay_in_their_family (s : Storage) :
  (forall c,
      keeps (sameFamilies s [namespace.auth; namespace.access;
                             namespace.access_token; namespace.refresh_token])
        (CreateClient s c) /\
      keeps (sameFamilies s [namespace.auth; namespace.access;
                             namespace.access_token; namespace.refresh_token])
        (UpdateClient s c) /\
      keeps (sameFamilies s [namespace.auth; namespace.access;
                             namespace.access_token; namespace.refresh_token])
        (DeleteClient s c)) /\
  (forall data code,
      keeps (sameFamilies s [namespace.client; namespace.access;
                             namespace.access_token; namespace.refresh_token])
        (SaveAuthorize s data) /\
      keeps (sameFamilies s [namespace.client; namespace.access;
                             namespace.access_token; namespace.refresh_token])
        (RemoveAuthorize s code)) /\
  (forall data token,
      keeps (sameFamilies s [namespace.client; namespace.auth])
        (SaveAccess s data) /\
      keeps (sameFamilies s [namespace.client; namespace.auth])
        (RemoveAccess s token) /\
      keeps (sameFamilies s [namespace.client; namespace.auth])
        (RemoveRefresh s token)).
Proof.
  assert (forall c,
             keeps (sameFamilies s [namespace.auth; namespace.access;
                                    namespace.access_token; namespace.refresh_token])
               (CreateClient s c)) as Hcreate.
  { intros c. unfold CreateClient.
    repeat first [ apply (keeps_Do s _ _ namespace.client (osin.GetId c));
                   [reflexivity | not_in_families]
                 | keeps_step ]. }
  assert (forall key,
             keeps (sameFamilies s [namespace.client; namespace.auth])
               (removeAccessImpl s key)) as Hremove.
  { intros key. unfold removeAccessImpl.
    repeat first
      [ apply (keeps_weaken sameKeySpace);
        [apply sameKeySpace_sameFamilies | apply keeps_loadAccessImpl]
      | eapply (keeps_Do s _ _ namespace.access); [reflexivity | not_in_families]
      | eapply (keeps_Do s _ _ namespace.access_token); [reflexivity | not_in_families]
      | eapply (keeps_Do s _ _ namespace.refresh_token); [reflexivity | not_in_families]
      | keeps_step ]. }
  split; [|split].
  - intros c. split; [apply Hcreate |]. split.
    + unfold UpdateClient. repeat first [apply Hcreate | keeps_step].
    + unfold DeleteClient.
      repeat first [ apply (keeps_Do s _ _ namespace.client (osin.GetId c));
                     [reflexivity | not_in_families]
                   | keeps_step ].
  - intros data code. split.
    + unfold SaveAuthorize.
      repeat first [ apply (keeps_Do s _ _ namespace.auth (AuthorizeData.Code data));
                     [reflexivity | not_in_families]
                   | keeps_step ].
    + unfold RemoveAuthorize.
      repeat first [ apply (keeps_Do s _ _ namespace.auth code);
                     [reflexivity | not_in_families]
                   | keeps_step ].
  - intros data token.
    split; [|split;
             [ exact (Hremove (makeKey s "access_token" token))
             | exact (Hremove (makeKey s "refresh_token" token)) ]].
    unfold SaveAccess.
    repeat first
      [ eapply (keeps_Do s _ _ namespace.access); [reflexivity | not_in_families]
      | eapply (keeps_Do s _ _ namespace.access_token); [reflexivity | not_in_families]
      | eapply (keeps_Do s _ _ namespace.refresh_token); [reflexivity | not_in_families]
      | keeps_step ].
Qed.

End LeftAlone.

(** ** Access records, further *)

Lemma faulty_head (w : World) (b : bool) (fs : list bool) :
  faults w = b :: fs -> faulty w = b.
Proof. unfold faulty. intros ->. by destruct b. Qed.

Lemma makeKey_same_family (s : Storage) (n : namespace.t) (id1 id2 : string) :
  id1 ≠ id2 -> makeKey s (namespace.tag n) id1 ≠ makeKey s (namespace.tag n) id2.
Proof.
  intros Hne Heq.
  apply makeKey_inj in Heq as [_ Hid]; auto using tag_delimiter_free.
Qed.

Section AccessFurther.

Context {codec : gob.Codec}.

(** The identifiers a successful [SaveAccess] leaves to be drawn. *)
Lemma SaveAccess_entropy (s : Storage) (data : AccessData.t) (w w1 : World) :
  SaveAccess s data w = (Ret None, w1) ->
  entropy w1 = entropy w /\ draws w1 = S (draws w).
Proof.
  unfold SaveAccess, encode, gob.Encode, gob.encodable_AccessData.
  destruct (gob.EncodeAccessData data) as [e|payload]; simpl; [done |].
  intros H. rewrite run_bind in H. simpl in H.
  round_trip H. round_trip H. round_trip H. by injection H as <-.
Qed.


(** The raw load of a pointer whose record is gone. *)
Lemma loadAccessImpl_dangling (s : Storage) (key accessID : string) (w : World) :
  stored w key = Some accessID ->
  stored w (accessKey s accessID) = None ->
  exists e w',
    loadAccessImpl s key w = (Ret (None, Some e), w') /\
    db w' = db w /\
    (healthy w -> NotFound (Some e)).
Proof.
  intros Hkey Hblob. unfold loadAccessImpl. rewrite run_Do.
  destruct (faulty w) eqn:Hup.
  - rewrite round_faulty by done. simpl. eexists _, _. split; [done |].
    split; [done |]. intros Hw. apply healthy_faulty in Hw. congruence.
  - rewrite round_GET, Hkey by done. simpl. rewrite run_Do.
    destruct (faulty (after w (db w))) eqn:Hup'.
    + rewrite round_faulty by done. simpl. eexists _, _. split; [done |].
      split; [done |]. intros Hw.
      apply (healthy_after _ (db w)), healthy_faulty in Hw. congruence.
    + rewrite round_GET, stored_after_same by done.
      fold (accessKey s accessID). rewrite Hblob. simpl.
      eexists _, _. split; [done |]. split; [done |]. intros _. by eexists.
Qed.

(** X15. A pointer whose record is gone can neither be loaded nor removed
    through the store: [loadAndRefreshAccess] and [removeAccessImpl] both
    return an error, NotFound against a reachable engine, and the removal
    deletes nothing, the pointer included. *)
Theorem dangling_pointer_is_stuck (s : Storage) (key accessID : string)
  (w : World) :
  stored w key = Some accessID ->
  stored w (accessKey s accessID) = None ->
  (exists e w',
      loadAndRefreshAccess s key w = (Ret (None, Some e), w') /\
      (healthy w -> NotFound (Some e))) /\
  (exists e w',
      removeAccessImpl s key w = (Ret (Some e), w') /\
      db w' = db w /\
      (healthy w -> NotFound (Some e))).
Proof.
  intros Hkey Hblob. split.
  - destruct (loadAccessImpl_dangling s key accessID w Hkey Hblob)
      as (e & w' & Hload & _ & Hnf).
    unfold loadAndRefreshAccess. rewrite run_bind, Hload. simpl.
    eexists _, _. split; [done |]. intros Hw.
    apply (NotFound_Wrap (Some e)). auto.
  - unfold removeAccessImpl. rewrite run_Do. destruct (faulty w) eqn:Hup.
    + rewrite round_faulty by done. simpl. eexists _, _. split; [done |].
      split; [done |]. intros Hw. apply healthy_faulty in Hw. congruence.
    + rewrite round_GET, Hkey by done. simpl. rewrite run_bind.
      destruct (loadAccessImpl_dangling s key accessID (after w (db w)))
        as (e & w' & Hload & Hdb & Hnf); [done.. |].
      rewrite Hload. simpl. eexists _, _. split; [done |]. split; [done |].
      intros Hw. apply (NotFound_Wrap (Some e)), Hnf. by apply healthy_after.
Qed.

(** X17. No partial record: when the client a saved record refers to has
    been deleted from the registry, [LoadAccess] against a reachable engine
    returns no record and NotFound, although the record and both its
    pointers are still stored. *)
Theorem load_fails_without_client {laws : gob.Laws codec} (s : Storage)
  (data : AccessData.t) (c : osin.Client) (w w1 w2 : World) :
  gob.plainAccess data ->
  AccessData.Client data = Some c ->
  SaveAccess s data w = (Ret None, w1) ->
  DeleteClient s c w1 = (Ret None, w2) ->
  healthy w2 ->
  (exists e,
      LoadAccess s (AccessData.AccessToken data) w2 = (Ret (None, Some e), w2) /\
      NotFound (Some e)) /\
  exists payload, linked s w2 data (entropy w (draws w)) payload.
Proof.
  intros Hplain Hc (payload & He & Hblob & Hat & Hrt)%SaveAccess_linked Hdel Hw2.
  unfold DeleteClient in Hdel. round_trip Hdel. injection Hdel as Hw2eq.
  assert (linked s w2 data (entropy w (draws w)) payload) as Hlinked.
  { rewrite <- Hw2eq. unfold linked. rewrite !stored_after.
    rewrite !get_delete_ne by distinct_keys. done. }
  assert (stored w2 (makeKey s "client" (osin.GetId c)) = None) as Hgone.
  { rewrite <- Hw2eq. rewrite stored_after. apply get_delete. }
  split; [|by exists payload].
  destruct Hlinked as (Hblob2 & Hat2 & _).
  destruct (decode_encode_access _ _ He) as (a & Hdec & _ & _ & Heq).
  rewrite (Heq Hplain) in Hdec.
  unfold LoadAccess, loadAndRefreshAccess.
  rewrite run_bind,
    (loadAccessImpl_run s (accessTokenKey s data) w2 _ payload Hw2 Hat2 Hblob2).
  rewrite Hdec. simpl. unfold refreshAccessClients. rewrite Hc.
  rewrite run_bind, GetClient_run, Hgone, after_same by (done || reachable).
  simpl. eexists. split; [done |]. by eexists.
Qed.

(** X18. A record saved without a client cannot be loaded: against a
    reachable engine [LoadAccess] dereferences the nil client and panics,
    where a nil client inside an embedded AuthorizeData is tolerated. *)
Theorem load_panics_without_client_reference {laws : gob.Laws codec}
  (s : Storage) (data : AccessData.t) (w w1 : World) :
  gob.plainAccess data ->
  AccessData.Client data = None ->
  SaveAccess s data w = (Ret None, w1) ->
  healthy w1 ->
  LoadAccess s (AccessData.AccessToken data) w1
  = (Panic "invalid memory address or nil pointer dereference", w1).
Proof.
  intros Hplain Hc (payload & He & Hblob & Hat & _)%SaveAccess_linked Hw1.
  destruct (decode_encode_access _ _ He) as (a & Hdec & _ & _ & Heq).
  rewrite (Heq Hplain) in Hdec.
  unfold LoadAccess, loadAndRefreshAccess.
  rewrite run_bind,
    (loadAccessImpl_run s (accessTokenKey s data) w1 _ payload Hw1 Hat Hblob).
  rewrite Hdec. simpl. unfold refreshAccessClients. by rewrite Hc.
Qed.

(** X19. There is no update in place: saving a second record under an
    access token already in use draws a new accessID and re-points the
    token to it, and the first record stays stored under its own accessID. *)
Theorem resave_repoints (s : Storage) (a b : AccessData.t) (w w1 w2 : World) :
  SaveAccess s a w = (Ret None, w1) ->
  SaveAccess s b w1 = (Ret None, w2) ->
  AccessData.AccessToken b = AccessData.AccessToken a ->
  entropy w (S (draws w)) ≠ entropy w (draws w) ->
  stored w2 (accessTokenKey s a) = Some (entropy w (S (draws w))) /\
  exists payload,
    gob.EncodeAccessData a = inr payload /\
    stored w2 (accessKey s (entropy w (draws w))) = Some payload.
Proof.
  intros Ha Hb Htok Hfresh.
  destruct (SaveAccess_entropy _ _ _ _ Ha) as [Hent Hdraws].
  apply SaveAccess_linked in Ha as (pa & Hea & Hblob & _ & _).
  apply SaveAccess_inv in Hb as (pb & _ & Hdb & Hclock).
  rewrite Hent, Hdraws in Hdb.
  assert (accessTokenKey s b = accessTokenKey s a) as Hkey
      by (unfold accessTokenKey; by rewrite Htok).
  split.
  - unfold stored. rewrite Hdb, Hkey.
    rewrite get_insert_ne by distinct_keys. apply get_insert.
  - exists pa. split; [done |]. unfold stored. rewrite Hdb, Hclock.
    rewrite get_insert_ne by distinct_keys.
    rewrite get_insert_ne by distinct_keys.
    rewrite get_insert_ne; [exact Hblob |].
    by apply (makeKey_same_family s namespace.access).
Qed.

Context {laws : gob.Laws codec}.


(** X20. A refresh token shared by two records, the empty one included, is
    lost to both when one is removed: after saving A and then B under the
    same refresh token, a successful [RemoveAccess] of A's access token
    deletes the refresh-token pointer, which pointed to B, while B's record
    and access-token pointer stay. *)
Theorem remove_takes_shared_refresh_pointer (s : Storage) (a b : AccessData.t)
  (w w1 w2 w3 : World) :
  SaveAccess s a w = (Ret None, w1) ->
  SaveAccess s b w1 = (Ret None, w2) ->
  AccessData.RefreshToken b = AccessData.RefreshToken a ->
  AccessData.AccessToken b ≠ AccessData.AccessToken a ->
  entropy w (S (draws w)) ≠ entropy w (draws w) ->
  RemoveAccess s (AccessData.AccessToken a) w2 = (Ret None, w3) ->
  stored w3 (refreshTokenKey s b) = None /\
  stored w3 (accessTokenKey s b) = Some (entropy w (S (draws w))) /\
  exists payload,
    gob.EncodeAccessData b = inr payload /\
    stored w3 (accessKey s (entropy w (S (draws w)))) = Some payload.
Proof.
  intros Ha Hb Hrtok Hatok Hfresh Hrm.
  destruct (SaveAccess_entropy _ _ _ _ Ha) as [Hent Hdraws].
  apply SaveAccess_linked in Ha as (pa & Hea & Hblob & Hat & _).
  apply SaveAccess_inv in Hb as (pb & Heb & Hdb & Hclock).
  rewrite Hent, Hdraws in Hdb.
  assert (makeKey s "access_token" (AccessData.AccessToken a)
          ≠ makeKey s "access_token" (AccessData.AccessToken b)) as Hak
      by (apply (makeKey_same_family s namespace.access_token); congruence).
  assert (makeKey s "access" (entropy w (draws w))
          ≠ makeKey s "access" (entropy w (S (draws w)))) as Hidk
      by (apply (makeKey_same_family s namespace.access); congruence).
  assert (refreshTokenKey s b = refreshTokenKey s a) as Hrk
      by (unfold refreshTokenKey; by rewrite Hrtok).
  assert (stored w2 (accessTokenKey s a) = Some (entropy w (draws w))) as Hat2.
  { unfold stored. rewrite Hdb, Hclock.
    rewrite get_insert_ne by distinct_keys.
    rewrite get_insert_ne by (unfold accessTokenKey; congruence).
    rewrite get_insert_ne by distinct_keys. exact Hat. }
  assert (stored w2 (accessKey s (entropy w (draws w))) = Some pa) as Hblob2.
  { unfold stored. rewrite Hdb, Hclock.
    rewrite get_insert_ne by distinct_keys.
    rewrite get_insert_ne by distinct_keys.
    rewrite get_insert_ne by (unfold accessKey; congruence). exact Hblob. }
  destruct (removeAccessImpl_inv s (accessTokenKey s a) w2 w3 Hrm)
    as (accessID & payload & r & Hptr & Hblobr & Hdec & Hdb3).
  assert (accessID = entropy w (draws w)) as -> by congruence.
  assert (payload = pa) as -> by congruence.
  destruct (decode_encode_access _ _ Hea) as (r' & Hdec' & Hat' & Hrt' & _).
  assert (r' = r) as -> by congruence.
  assert (refreshTokenKey s r = refreshTokenKey s a) as Hrkr
      by (unfold refreshTokenKey; by rewrite Hrt').
  assert (accessTokenKey s r = accessTokenKey s a) as Hakr
      by (unfold accessTokenKey; by rewrite Hat').
  rewrite Hrkr, Hakr in Hdb3.
  split; [|split].
  - unfold stored. rewrite Hdb3, Hrk. apply get_delete.
  - unfold stored. rewrite Hdb3.
    rewrite get_delete_ne by distinct_keys.
    rewrite get_delete_ne by (unfold accessTokenKey; congruence).
    rewrite get_delete_ne by distinct_keys. rewrite Hdb.
    rewrite get_insert_ne by distinct_keys. apply get_insert.
  - exists pb. split; [done |]. unfold stored. rewrite Hdb3.
    rewrite get_delete_ne by distinct_keys.
    rewrite get_delete_ne by distinct_keys.
    rewrite get_delete_ne by (unfold accessKey; congruence). rewrite Hdb.
    rewrite get_insert_ne by distinct_keys.
    rewrite get_insert_ne by distinct_keys. apply get_insert.
Qed.

End AccessFurther.

(** ** The further properties on the sample inputs *)

Lemma getClient_absent_witness :
  stored sample.world (makeKey sample.store "client" "c1") = None /\
  exists e,
    GetClient (codec := refcodec.codec) sample.store "c1" sample.world
    = (Ret (None, Some e), after sample.world (db sample.world)) /\
    (NotFound (Some e) \/ BackendError (Some e)) /\
    (faulty sample.world = false -> NotFound (Some e)).
Proof.
  assert (stored sample.world (makeKey sample.store "client" "c1") = None)
    as Habsent by reflexivity.
  split; [exact Habsent |].
  exact (getClient_absent (codec := refcodec.codec) sample.store "c1"
           sample.world Habsent).
Defined.

Lemma scenario_deleted :
  DeleteClient sample.store (osin.PtrDefaultClient sample.c1) sample.registered
  = (Ret None, scenario.deleted).
Proof. apply run_split. vm_compute. reflexivity. Qed.

Lemma deleteClient_getClient_witness :
  exists e,
    GetClient (codec := refcodec.codec) sample.store
      (osin.GetId (osin.PtrDefaultClient sample.c1)) scenario.deleted
    = (Ret (None, Some e), after scenario.deleted (db scenario.deleted)) /\
    (faulty scenario.deleted = false -> NotFound (Some e)).
Proof.
  exact (deleteClient_getClient (codec := refcodec.codec) sample.store
           (osin.PtrDefaultClient sample.c1) sample.registered scenario.deleted
           scenario_deleted).
Defined.

Lemma getClient_decode_failure_witness :
  GetClient (codec := refcodec.codec) sample.store "c1" scenario.corrupt
  = (Ret (Some (osin.PtrDefaultClient zeroDefaultClient),
          Some (errors.ErrWrap
                  (errors.ErrWrap (errors.ErrGob "unexpected EOF") "unable to decode")
                  "failed to decode client gob")),
     after scenario.corrupt (db scenario.corrupt)).
Proof.
  apply (getClient_decode_failure (codec := refcodec.codec) sample.store "c1"
           "garbage" scenario.corrupt zeroDefaultClient
           (errors.ErrGob "unexpected EOF")); reflexivity.
Defined.

Lemma encode_failure_writes_nothing_witness :
  gob.EncodeClient (Codec := refcodec.codec) (osin.PtrDefaultClient scenario.exotic)
  = inl (errors.ErrGob "gob: type not registered for interface: main.Profile") /\
  CreateClient (codec := refcodec.codec) sample.store
    (osin.PtrDefaultClient scenario.exotic) sample.world
  = (Ret (Some (errors.ErrWrap
                  (errors.ErrWrap
                     (errors.ErrGob
                        "gob: type not registered for interface: main.Profile")
                     "unable to encode")
                  "failed to encode client")), sample.world) /\
  gob.EncodeAccessData (Codec := refcodec.codec) scenario.foreignAccess
  = inl (errors.ErrGob "gob: type not registered for interface: *main.TenantClient") /\
  SaveAccess (codec := refcodec.codec) sample.store scenario.foreignAccess sample.world
  = (Ret (Some (errors.ErrWrap
                  (errors.ErrWrap
                     (errors.ErrGob
                        "gob: type not registered for interface: *main.TenantClient")
                     "unable to encode")
                  "failed to encode access")), sample.world).
Proof.
  assert (gob.EncodeClient (Codec := refcodec.codec)
            (osin.PtrDefaultClient scenario.exotic)
          = inl (errors.ErrGob "gob: type not registered for interface: main.Profile"))
    as Hc by reflexivity.
  assert (gob.EncodeAccessData (Codec := refcodec.codec) scenario.foreignAccess
          = inl (errors.ErrGob
                   "gob: type not registered for interface: *main.TenantClient"))
    as Ha by reflexivity.
  split; [exact Hc |].
  split; [exact (proj1 (encode_failure_writes_nothing (codec := refcodec.codec)
                          sample.store sample.world) _ _ Hc) |].
  split; [exact Ha |].
  exact (proj2 (encode_failure_writes_nothing (codec := refcodec.codec)
                  sample.store sample.world) _ _ Ha).
Defined.


Lemma scenario_coded :
  SaveAuthorize (codec := refcodec.codec) sample.store sample.code1 sample.world
  = (Ret None, scenario.coded).
Proof. apply run_split. vm_compute. reflexivity. Qed.

Lemma scenario_consumed :
  RemoveAuthorize sample.store (AuthorizeData.Code sample.code1) scenario.coded
  = (Ret None, scenario.consumed).
Proof. apply run_split. vm_compute. reflexivity. Qed.

Lemma saveAuthorize_loadAuthorize_witness :
  (LoadAuthorize (codec := refcodec.codec) sample.store
     (AuthorizeData.Code sample.code1) (tick 599 scenario.coded)).1
  = Ret (Some sample.code1, None).
Proof.
  assert (faulty (tick 599 scenario.coded) = false) as Hup
      by (vm_compute; reflexivity).
  exact (saveAuthorize_loadAuthorize (laws := refcodec_laws) sample.store
           sample.code1 sample.world scenario.coded 599 I scenario_coded
           eq_refl Hup).
Defined.

Lemma loadAuthorize_after_expiry_witness :
  exists e w2,
    LoadAuthorize (codec := refcodec.codec) sample.store
      (AuthorizeData.Code sample.code1) (tick 600 scenario.coded)
    = (Ret (None, Some e), w2) /\
    (faulty (tick 600 scenario.coded) = false -> Expired (Some e)).
Proof.
  assert (AuthorizeData.ExpiresIn sample.code1 <= 600) as Hle by (simpl; lia).
  exact (loadAuthorize_after_expiry (codec := refcodec.codec) sample.store
           sample.code1 sample.world scenario.coded 600 scenario_coded Hle).
Defined.

Lemma removeAuthorize_loadAuthorize_witness :
  stored scenario.consumed
    (makeKey sample.store "auth" (AuthorizeData.Code sample.code1)) = None /\
  exists e w3,
    LoadAuthorize (codec := refcodec.codec) sample.store
      (AuthorizeData.Code sample.code1) scenario.consumed
    = (Ret (None, Some e), w3) /\
    (faulty scenario.consumed = false -> Expired (Some e)).
Proof.
  exact (removeAuthorize_loadAuthorize (codec := refcodec.codec) sample.store
           (AuthorizeData.Code sample.code1) scenario.coded scenario.consumed
           scenario_consumed).
Defined.

Lemma GetClient_default_witness :
  exists d, osin.PtrDefaultClient sample.c1 = osin.PtrDefaultClient d.
Proof.
  assert (GetClient (codec := refcodec.codec) sample.store "c1" sample.registered
          = (Ret (Some (osin.PtrDefaultClient sample.c1), None),
             (GetClient (codec := refcodec.codec) sample.store "c1"
                sample.registered).2)) as Hget
      by (apply run_split; vm_compute; reflexivity).
  exact (GetClient_default (codec := refcodec.codec) sample.store "c1"
           sample.registered _ _ _ Hget).
Defined.

Lemma scenario_refreshRemoved :
  RemoveRefresh (codec := refcodec.codec) sample.store
    (AccessData.RefreshToken sample.access1) sample.saved
  = (Ret None, scenario.refreshRemoved).
Proof. apply run_split. vm_compute. reflexivity. Qed.

Lemma cascade_delete_refresh_witness :
  (exists e w4,
      LoadAccess (codec := refcodec.codec) sample.store
        (AccessData.AccessToken sample.access1) scenario.refreshRemoved
      = (Ret (None, Some e), w4) /\
      (faulty scenario.refreshRemoved = false -> NotFound (Some e))) /\
  (exists e w4,
      LoadRefresh (codec := refcodec.codec) sample.store
        (AccessData.RefreshToken sample.access1) scenario.refreshRemoved
      = (Ret (None, Some e), w4) /\
      (faulty scenario.refreshRemoved = false -> NotFound (Some e))).
Proof.
  exact (cascade_delete_refresh (laws := refcodec_laws) sample.store sample.access1
           sample.registered sample.saved scenario.refreshRemoved
           scenario.refreshRemoved sample_saved scenario_refreshRemoved eq_refl).
Defined.

Lemma loads_are_read_only_witness :
  sameKeySpace sample.saved
    (LoadAccess (codec := refcodec.codec) sample.store "at1" sample.saved).2.
Proof.
  exact (proj1 (proj2 (proj2 (loads_are_read_only (codec := refcodec.codec)
                                sample.store "at1")))
           sample.saved _ _ (surjective_pairing _)).
Defined.

Lemma writes_stay_in_their_family_witness :
  sameFamilies sample.store [namespace.client; namespace.auth]
    sample.registered sample.saved.
Proof.
  exact (proj1 (proj2 (proj2 (writes_stay_in_their_family (codec := refcodec.codec)
                                sample.store)) sample.access1 "at1")
           sample.registered _ _ sample_saved).
Defined.

Lemma sample_access1_encodes :
  gob.EncodeAccessData (Codec := refcodec.codec) sample.access1
  = inr (refcodec.marshal (refcodec.AccessFrame sample.access1)).
Proof. reflexivity. Qed.


Lemma dangling_pointer_is_stuck_witness :
  (exists e w',
      loadAndRefreshAccess (codec := refcodec.codec) sample.store
        "osin:access_token:at1" scenario.dangling
      = (Ret (None, Some e), w') /\
      (healthy scenario.dangling -> NotFound (Some e))) /\
  (exists e w',
      removeAccessImpl (codec := refcodec.codec) sample.store
        "osin:access_token:at1" scenario.dangling
      = (Ret (Some e), w') /\
      db w' = db scenario.dangling /\
      (healthy scenario.dangling -> NotFound (Some e))).
Proof.
  apply (dangling_pointer_is_stuck (codec := refcodec.codec) sample.store
           "osin:access_token:at1" "7c9e6679" scenario.dangling);
    vm_compute; reflexivity.
Defined.

Lemma scenario_brittleSaved :
  SaveAccess (codec := refcodec.codec) sample.store sample.access1 scenario.brittle
  = (Ret None, scenario.brittleSaved).
Proof. apply run_split. vm_compute. reflexivity. Qed.


Lemma scenario_unregistered :
  DeleteClient sample.store (osin.PtrDefaultClient sample.c1) sample.saved
  = (Ret None, scenario.unregistered).
Proof. apply run_split. vm_compute. reflexivity. Qed.

Lemma load_fails_without_client_witness :
  (exists e,
      LoadAccess (codec := refcodec.codec) sample.store
        (AccessData.AccessToken sample.access1) scenario.unregistered
      = (Ret (None, Some e), scenario.unregistered) /\
      NotFound (Some e)) /\
  exists payload,
    linked sample.store scenario.unregistered sample.access1
      (entropy sample.registered (draws sample.registered)) payload.
Proof.
  assert (healthy scenario.unregistered) as Hw by (vm_compute; reflexivity).
  exact (load_fails_without_client (laws := refcodec_laws) sample.store
           sample.access1 (osin.PtrDefaultClient sample.c1)
           sample.registered sample.saved scenario.unregistered
           (conj I I) eq_refl sample_saved scenario_unregistered Hw).
Defined.

Lemma scenario_orphaned :
  SaveAccess (codec := refcodec.codec) sample.store scenario.orphan sample.world
  = (Ret None, scenario.orphaned).
Proof. apply run_split. vm_compute. reflexivity. Qed.

Lemma load_panics_without_client_reference_witness :
  LoadAccess (codec := refcodec.codec) sample.store
    (AccessData.AccessToken scenario.orphan) scenario.orphaned
  = (Panic "invalid memory address or nil pointer dereference", scenario.orphaned).
Proof.
  assert (healthy scenario.orphaned) as Hw by (vm_compute; reflexivity).
  exact (load_panics_without_client_reference (laws := refcodec_laws) sample.store
           scenario.orphan sample.world scenario.orphaned
           (conj I I) eq_refl scenario_orphaned Hw).
Defined.

Lemma scenario_resaved :
  SaveAccess (codec := refcodec.codec) sample.store scenario.reissued sample.saved
  = (Ret None, scenario.resaved).
Proof. apply run_split. vm_compute. reflexivity. Qed.

Lemma sample_registered_fresh :
  entropy sample.registered (S (draws sample.registered))
  ≠ entropy sample.registered (draws sample.registered).
Proof. vm_compute. discriminate. Qed.

Lemma resave_repoints_witness :
  stored scenario.resaved (accessTokenKey sample.store sample.access1)
  = Some (entropy sample.registered (S (draws sample.registered))) /\
  exists payload,
    gob.EncodeAccessData (Codec := refcodec.codec) sample.access1 = inr payload /\
    stored scenario.resaved
      (accessKey sample.store (entropy sample.registered (draws sample.registered)))
    = Some payload.
Proof.
  exact (resave_repoints (codec := refcodec.codec) sample.store sample.access1
           scenario.reissued sample.registered sample.saved scenario.resaved
           sample_saved scenario_resaved eq_refl sample_registered_fresh).
Defined.

Lemma scenario_blank1saved :
  SaveAccess (codec := refcodec.codec) sample.store sample.blank sample.registered
  = (Ret None, scenario.blank1saved).
Proof. apply run_split. vm_compute. reflexivity. Qed.

Lemma scenario_blank2saved :
  SaveAccess (codec := refcodec.codec) sample.store scenario.blank2
    scenario.blank1saved
  = (Ret None, scenario.blank2saved).
Proof. apply run_split. vm_compute. reflexivity. Qed.

Lemma scenario_blank1removed :
  RemoveAccess (codec := refcodec.codec) sample.store
    (AccessData.AccessToken sample.blank) scenario.blank2saved
  = (Ret None, scenario.blank1removed).
Proof. apply run_split. vm_compute. reflexivity. Qed.

Lemma remove_takes_shared_refresh_pointer_witness :
  stored scenario.blank1removed (refreshTokenKey sample.store scenario.blank2) = None /\
  stored scenario.blank1removed (accessTokenKey sample.store scenario.blank2)
  = Some (entropy sample.registered (S (draws sample.registered))) /\
  exists payload,
    gob.EncodeAccessData (Codec := refcodec.codec) scenario.blank2 = inr payload /\
    stored scenario.blank1removed
      (accessKey sample.store
         (entropy sample.registered (S (draws sample.registered))))
    = Some payload.
Proof.
  assert (AccessData.AccessToken scenario.blank2
          ≠ AccessData.AccessToken sample.blank) as Hne by discriminate.
  exact (remove_takes_shared_refresh_pointer (laws := refcodec_laws) sample.store
           sample.blank scenario.blank2 sample.registered scenario.blank1saved
           scenario.blank2saved scenario.blank1removed
           scenario_blank1saved scenario_blank2saved eq_refl Hne
           sample_registered_fresh scenario_blank1removed).
Defined.
